(** * Tiered interest calculator: [src/components/InterestCalculator.jsx]

    A shallow embedding of the React component's handlers.  The component's
    [useState] cells become the fields of one [State] record and every handler
    becomes a function from the state of the render it was created in to an
    [Outcome]: what it signalled (the text passed to [alert], or the
    [TypeError] it threw), if anything, and the state after the handler's
    [set...] calls.  The [localStorage.setItem] calls mirror the state and
    are left out.  The arrays of the state are JavaScript arrays, which can
    have holes: [JHole] is a slot without an element.

    JavaScript numbers are kept behind the interface [JSNumber], so that the
    handlers are written once and run in two models:
    - [Binary64]: IEEE 754 double precision (the kernel's primitive floats),
      used to run the code bit for bit on concrete inputs;
    - [Exact]: the extended rationals (a rational, [+Infinity], [-Infinity]
      or [NaN]) with unrounded arithmetic, used for the algebraic laws.
    The builtins the source calls and that are not arithmetic ([parseFloat],
    [Math.pow], [Number.prototype.toString], and the number formatting behind
    [formatAmount]) are section variables. *)

From Stdlib Require Import ZArith QArith Qcanon Lqa Ascii String.
From Stdlib Require PrimFloat Uint63 FloatClass.
From stdpp Require Import base option list strings pretty.

Set Default Proof Using "Type".
Local Open Scope string_scope.
Local Open Scope list_scope.

(** ** JavaScript values and numbers *)

(** An array slot of [tierThresholds] or [interestRates]: a string,
    [undefined], or no element at all, which is the hole a write past the
    end leaves between the old end and the new element. A hole is not a
    value: an index expression reads [undefined] from it, the spread syntax
    copies it as [undefined], and [map], [some] and [filter] pass it
    over. *)
Inductive jsval :=
  | JString (s : string)
  | JUndefined
  | JHole.

#[global] Instance jsval_eq_dec : EqDecision jsval.
Proof. solve_decision. Defined.

(** The arithmetic the handlers use. *)
Class JSNumber (num : Type) := {
  num_lit : Z -> num;                 (* an integer literal *)
  Infinity : num;
  NaN : num;
  isNaN : num -> bool;
  num_add : num -> num -> num;
  num_sub : num -> num -> num;
  num_mul : num -> num -> num;
  num_div : num -> num -> num;
  num_le : num -> num -> bool;        (* x <= y *)
  num_lt : num -> num -> bool;        (* x < y *)
  num_eq : num -> num -> bool;        (* x === y *)
  Math_min : num -> num -> num;
}.

Declare Scope js_scope.
Delimit Scope js_scope with js.
Notation "x + y" := (num_add x y) : js_scope.
Notation "x - y" := (num_sub x y) : js_scope.
Notation "x * y" := (num_mul x y) : js_scope.
Notation "x / y" := (num_div x y) : js_scope.
Notation "x <=? y" := (num_le x y) : js_scope.
Notation "x <? y" := (num_lt x y) : js_scope.
Notation "x === y" := (num_eq x y) (at level 70, no associativity) : js_scope.

(** ** The component's data *)

Record TimePeriod := {
  tp_value : string;                         (* [timePeriod.value] *)
  tp_unit : string;                          (* [timePeriod.unit] *)
}.

(** An element of [tierBreakdown]. [rate] is [rates[i]], which is
    [undefined] when the rate list is shorter than the tier list. *)
Record TierEntry (num : Type) := {
  tier : string;
  amount : num;
  rate : option num;
  interest : num;
}.
Arguments tier {num} _.
Arguments amount {num} _.
Arguments rate {num} _.
Arguments interest {num} _.

(** [newResult]. The [r_] fields are the copies of the inputs. *)
Record Result (num : Type) := {
  depositAmount : num;
  tierBreakdown : list (TierEntry num);
  totalInterest : num;
  effectiveRate : num;
  totalAmount : num;
  date : string;
  r_rates : list jsval;
  r_thresholds : list jsval;
  r_timePeriod : TimePeriod;
  r_isCompound : bool;
  r_compoundFrequency : option string;
}.
Arguments depositAmount {num} _.
Arguments tierBreakdown {num} _.
Arguments totalInterest {num} _.
Arguments effectiveRate {num} _.
Arguments totalAmount {num} _.
Arguments date {num} _.
Arguments r_rates {num} _.
Arguments r_thresholds {num} _.
Arguments r_timePeriod {num} _.
Arguments r_isCompound {num} _.
Arguments r_compoundFrequency {num} _.

(** The [useState] cells the handlers read or write. *)
Record State (num : Type) := {
  amountText : string;                       (* [amount] *)
  interestRates : list jsval;
  tierThresholds : list jsval;
  timePeriod : TimePeriod;
  isCompound : bool;
  compoundFrequency : string;
  result : option (Result num);
  savedCalculations : list (Result num);
}.
Arguments amountText {num} _.
Arguments interestRates {num} _.
Arguments tierThresholds {num} _.
Arguments timePeriod {num} _.
Arguments isCompound {num} _.
Arguments compoundFrequency {num} _.
Arguments result {num} _.
Arguments savedCalculations {num} _.

(** What interrupts a handler: the dialog it opens with [alert(text)], or
    the [TypeError] it throws. *)
Inductive Signal :=
  | Alert (text : string)
  | Throws (error : string).

(** What a handler leaves behind: its signal, if any, and the next state.
    [alert] is [None] for a handler that ran to its end in silence. A
    handler that throws leaves the state as it was. *)
Record Outcome (num : Type) := {
  alert : option Signal;
  next : State num;
}.
Arguments alert {num} _.
Arguments next {num} _.

(** A tier of [getCurrentTiers]. *)
Record Tier (num : Type) := {
  maxAmount : num;
  name : string;
}.
Arguments maxAmount {num} _.
Arguments name {num} _.

(** The loop variables of [calculateInterest]. *)
Record Loop (num : Type) := {
  remainingAmount : num;
  totalInterest_ : num;
  tierBreakdown_ : list (TierEntry num);
}.
Arguments remainingAmount {num} _.
Arguments totalInterest_ {num} _.
Arguments tierBreakdown_ {num} _.

Definition defaultRates : list jsval :=
  [JString "4.00"; JString "6.25"; JString "7.50"; JString "7.75"].
Definition defaultThresholds : list jsval :=
  [JString "100000"; JString "500000"; JString "500000000"; JString "Infinity"].

(** ** Arrays *)

(** What an index expression reads from a slot: [undefined] from a
    hole. *)
Definition read (slot : jsval) : jsval :=
  match slot with
  | JHole => JUndefined
  | v => v
  end.

(** [[...arr]]: the copy has [undefined] where [arr] has a hole. *)
Definition spread (arr : list jsval) : list jsval := map read arr.

(** [arr[i]]: [undefined] past the end, below [0] and at a hole. *)
Definition array_get (arr : list jsval) (i : Z) : jsval :=
  if decide (0 <= i)%Z then read (default JUndefined (arr !! Z.to_nat i))
  else JUndefined.

(** [arr[i] = v]: in range the slot is overwritten; past the end the array
    grows to length [i + 1] and the slots in between are holes. *)
Definition array_set (arr : list jsval) (i : nat) (v : jsval) : list jsval :=
  if decide (i < length arr)%nat then <[i := v]> arr
  else arr ++ replicate (i - length arr) JHole ++ [v].

(** [arr.filter((_, i) => i !== index)]: [filter] passes over the holes,
    so that they are dropped as well. *)
Definition remove_index (index : nat) (arr : list jsval) : list jsval :=
  omap id (imap (fun i x => if decide (i = index) then None
                            else if decide (x = JHole) then None
                            else Some x) arr).

(** [arr.map(f)]: the holes of [arr] are holes of the result, [None]. *)
Definition array_map {B} (f : jsval -> B) (arr : list jsval)
    : list (option B) :=
  map (fun slot => if decide (slot = JHole) then None else Some (f slot)) arr.

(** [arr.some(p)]: the holes are passed over. *)
Definition array_some {B} (p : B -> bool) (arr : list (option B)) : bool :=
  existsb p (omap id arr).

(** [arr[i]] on the result of [map]: [undefined], here [None], past the
    end and at a hole. *)
Definition array_at {B} (arr : list (option B)) (i : nat) : option B :=
  mjoin (arr !! i).

(** The slot holds a string. *)
Definition is_string (slot : jsval) : bool :=
  match slot with
  | JString _ => true
  | _ => false
  end.

(** Every slot of the array holds a string. *)
Definition all_strings (arr : list jsval) : bool := forallb is_string arr.

(** The array has no hole. *)
Definition no_holes (arr : list jsval) : Prop := JHole ∉ arr.

(** [arr.splice(arr.length - 1, 0, v)] on a copy: a negative start is
    clamped to [0]. *)
Definition splice_before_last {A} (arr : list A) (v : A) : list A :=
  take (length arr - 1) arr ++ v :: drop (length arr - 1) arr.

(** ** Strings *)

(** A character of the class [[\d.]]. *)
Definition is_number_char (c : ascii) : bool :=
  let n := nat_of_ascii c in
  ((48 <=? n)%nat && (n <=? 57)%nat) || (n =? 46)%nat.

(** [value.match(/[\d.]+/g) || []]: the maximal runs of digits and dots,
    left to right. [run] is the run being read. *)
Fixpoint number_runs (value : string) (run : string) : list string :=
  match value with
  | EmptyString => if decide (run = "") then [] else [run]
  | String c rest =>
      if is_number_char c then number_runs rest (run +:+ String c "")
      else if decide (run = "") then number_runs rest ""
      else run :: number_runs rest ""
  end.

(** The lower case of an ASCII character. *)
Definition lower_char (c : ascii) : ascii :=
  let n := nat_of_ascii c in
  if ((65 <=? n)%nat && (n <=? 90)%nat) then ascii_of_nat (n + 32) else c.

(** [s.toLowerCase()], a string being the bytes of its UTF-8 encoding.
    Two characters outside ASCII have ASCII letters in their lower case:
    the Kelvin sign U+212A (bytes E2 84 AA) becomes [k], and the dotted
    capital I U+0130 (bytes C4 B0) becomes [i] followed by the combining dot
    U+0307 (bytes CC 87). Every other character outside ASCII has a lower
    case outside ASCII; those are left as they are, which no search for an
    ASCII word in the result can tell. *)
Fixpoint toLowerCase (s : string) : string :=
  match s with
  | EmptyString => EmptyString
  | String c rest =>
      let plain := String (lower_char c) (toLowerCase rest) in
      match rest with
      | EmptyString => plain
      | String c1 rest1 =>
          if Ascii.eqb c "196" && Ascii.eqb c1 "176" then
            String "i" (String "204" (String "135" (toLowerCase rest1)))
          else
            match rest1 with
            | EmptyString => plain
            | String c2 rest2 =>
                if Ascii.eqb c "226" && Ascii.eqb c1 "132"
                   && Ascii.eqb c2 "170"
                then String "k" (toLowerCase rest2)
                else plain
            end
      end
  end.

(** [s.includes(sub)]. *)
Fixpoint includes (s sub : string) : bool :=
  String.prefix sub s ||
  match s with
  | EmptyString => false
  | String _ rest => includes rest sub
  end.

(** A plain decimal literal, digits with at most one dot and at least one
    digit, read as a whole number and a count of decimals: ["6.25"] is
    [(625, 2)]. [acc] is the number read, [decimals] the count once the dot
    is passed, [seen] tells whether a digit was read. *)
Fixpoint plain_decimal (s : string) (acc : Z) (decimals : option nat)
    (seen : bool) : option (Z * nat) :=
  match s with
  | EmptyString => if seen then Some (acc, default 0%nat decimals) else None
  | String c rest =>
      let n := nat_of_ascii c in
      if ((48 <=? n)%nat && (n <=? 57)%nat) then
        plain_decimal rest (10 * acc + Z.of_nat (n - 48))%Z
          (S <$> decimals) true
      else if (n =? 46)%nat then
        match decimals with
        | None => plain_decimal rest acc (Some 0%nat) seen
        | Some _ => None
        end
      else None
  end.

(** ** The handlers *)

Section Component.
Context {num : Type} `{JSNumber num}.

(** Builtins of the JavaScript runtime. *)
Variable parseFloat : jsval -> num.
Variable Math_pow : num -> num -> num.
Variable Number_toString : num -> string.
(** [formatAmount(amount)], that is [formatIndianAmount(amount, 'text')]
    without its rupee sign: it rests on [toFixed]. *)
Variable formatAmount : jsval -> string.

Local Open Scope js_scope.

(** [x || y] on numbers: [0] and [NaN] are falsy. *)
Definition num_or (x y : num) : num :=
  if isNaN x || (x === num_lit 0) then y else x.

(** A slot of [rates] used as a number: [undefined] becomes [NaN]. *)
Definition to_number (r : option num) : num := default NaN r.

Definition parseIndianFormat (value : string) : num :=
  if decide (value = "") then num_lit 0
  else
    let numbers := number_runs value "" in
    let lastNumber := default "0" (last numbers) in
    let amount := parseFloat (JString lastNumber) in
    if includes (toLowerCase value) "lakh" then amount * num_lit 100000
    else if includes (toLowerCase value) "crore" then amount * num_lit 10000000
    else amount.

(** The loop of [getTierNames] formats every slot. On a slot that holds
    no string [formatAmount] throws a [TypeError]: [formatIndianAmount]
    hands [undefined] back and [replace] is called on it. That is [None]
    here. *)
Definition getTierNames (thresholds : list jsval) : option (list string) :=
  if all_strings thresholds then
    Some (imap (fun i threshold =>
      if decide (i = 0%nat) then
        "Upto ₹" +:+ formatAmount threshold
      else if decide (threshold = JString "Infinity") then
        "Above ₹" +:+ formatAmount (array_get thresholds (Z.of_nat i - 1))
      else
        "Above ₹" +:+ formatAmount (array_get thresholds (Z.of_nat i - 1))
          +:+ " upto ₹" +:+ formatAmount threshold) thresholds)
  else None.

(** [getCurrentTiers()], as [calculateInterest] uses it. Its callback
    calls [getTierNames] for every slot that is not a hole, so it throws as
    [getTierNames] does; and when every slot is a hole the tiers are all
    holes, and the loop of [calculateInterest] throws on [tier.maxAmount] at
    the first of them. Both are [None] here: no tiers to compute with. *)
Definition getCurrentTiers (st : State num) : option (list (Tier num)) :=
  names ← getTierNames (tierThresholds st);
  Some (imap (fun index threshold =>
    let value :=
      if decide (threshold = JString "Infinity") then Infinity
      else parseFloat threshold in
    {| maxAmount := value; name := default "" (names !! index) |})
    (tierThresholds st)).

Definition updateInterestRate (index : nat) (value : string)
    (st : State num) : Outcome num :=
  let newRates :=
    array_set (spread (interestRates st)) index (JString value) in
  {| alert := None;
     next := {| amountText := amountText st; interestRates := newRates;
                tierThresholds := tierThresholds st;
                timePeriod := timePeriod st; isCompound := isCompound st;
                compoundFrequency := compoundFrequency st;
                result := result st;
                savedCalculations := savedCalculations st |} |}.

Definition updateAmount (value : string) (st : State num) : Outcome num :=
  {| alert := None;
     next := {| amountText := value; interestRates := interestRates st;
                tierThresholds := tierThresholds st;
                timePeriod := timePeriod st; isCompound := isCompound st;
                compoundFrequency := compoundFrequency st;
                result := result st;
                savedCalculations := savedCalculations st |} |}.

Definition set_timePeriod (tp : TimePeriod) (st : State num) : State num :=
  {| amountText := amountText st; interestRates := interestRates st;
     tierThresholds := tierThresholds st;
     timePeriod := tp; isCompound := isCompound st;
     compoundFrequency := compoundFrequency st;
     result := result st;
     savedCalculations := savedCalculations st |}.

Definition updateTimePeriodValue (value : string) (st : State num)
    : Outcome num :=
  let newTimePeriod :=
    {| tp_value := value; tp_unit := tp_unit (timePeriod st) |} in
  {| alert := None; next := set_timePeriod newTimePeriod st |}.

Definition updateTimePeriodUnit (unit : string) (st : State num)
    : Outcome num :=
  let newTimePeriod :=
    {| tp_value := tp_value (timePeriod st); tp_unit := unit |} in
  {| alert := None; next := set_timePeriod newTimePeriod st |}.

(** [setInterestRates] and [setTierThresholds] together. *)
Definition set_tiers (newThresholds newRates : list jsval)
    (st : State num) : State num :=
  {| amountText := amountText st; interestRates := newRates;
     tierThresholds := newThresholds;
     timePeriod := timePeriod st; isCompound := isCompound st;
     compoundFrequency := compoundFrequency st;
     result := result st;
     savedCalculations := savedCalculations st |}.

(** The two [while] loops of [updateTierThreshold]: push ['4.00'] while
    the rates are fewer than [n], pop while they are more. *)
Definition resize_rates (rates : list jsval) (n : nat) : list jsval :=
  take n (rates ++ replicate (n - length rates) (JString "4.00")).

Definition updateTierThreshold (index : nat) (value : string)
    (st : State num) : Outcome num :=
  if decide (Z.of_nat index = Z.of_nat (length (tierThresholds st)) - 1)%Z
  then {| alert := None; next := st |}
  else
    let newThresholds :=
      array_set (spread (tierThresholds st)) index (JString value) in
    let newRates :=
      if decide (length (interestRates st) <> length newThresholds)
      then resize_rates (spread (interestRates st)) (length newThresholds)
      else interestRates st in
    {| alert := None; next := set_tiers newThresholds newRates st |}.

Definition addTier (st : State num) : Outcome num :=
  if decide (10 <= length (tierThresholds st))%nat then
    {| alert := Some (Alert "Maximum 10 tiers allowed"); next := st |}
  else
    let lastThresholdValue :=
      num_or
        (parseFloat (array_get (tierThresholds st)
                       (Z.of_nat (length (tierThresholds st)) - 2)))
        (num_lit 100000) in
    let suggestedNewThreshold := lastThresholdValue * num_lit 2 in
    let newThresholds :=
      splice_before_last (spread (tierThresholds st))
        (JString (Number_toString suggestedNewThreshold)) in
    let newRates := spread (interestRates st) ++ [JString "4.00"] in
    {| alert := None; next := set_tiers newThresholds newRates st |}.

Definition removeTier (index : nat) (st : State num) : Outcome num :=
  if decide (length (tierThresholds st) <= 2)%nat then
    {| alert := Some (Alert "Minimum 1 tier required"); next := st |}
  else if decide (Z.of_nat index
                  = Z.of_nat (length (tierThresholds st)) - 1)%Z then
    {| alert := Some (Alert "Cannot remove the highest tier"); next := st |}
  else
    let newThresholds := remove_index index (tierThresholds st) in
    let newRates := remove_index index (interestRates st) in
    {| alert := None; next := set_tiers newThresholds newRates st |}.

Definition resetToDefaults (st : State num) : Outcome num :=
  {| alert := Some (Alert "Reset to default interest rates and tiers");
     next := set_tiers defaultThresholds defaultRates st |}.

(** *** [calculateInterest] *)

(** [switch (compoundFrequency)]. *)
Definition compoundsPerYear (compoundFrequency : string) : num :=
  if String.eqb compoundFrequency "monthly" then num_lit 12
  else if String.eqb compoundFrequency "quarterly" then num_lit 4
  else if String.eqb compoundFrequency "semi-annually" then num_lit 2
  else num_lit 1.

(** [switch (timePeriod.unit)] for [timeInYears] and for [periodFactor]:
    the two switches are the same. *)
Definition timeInYears (unit : string) (periodValue : num) : num :=
  if String.eqb unit "day" then periodValue / num_lit 365
  else if String.eqb unit "month" then periodValue / num_lit 12
  else if String.eqb unit "quarter" then periodValue / num_lit 4
  else periodValue.

(** [switch (timePeriod.unit)] for [annualizationFactor]. *)
Definition annualizationFactor (unit : string) (periodValue : num) : num :=
  if String.eqb unit "day" then num_lit 365 / periodValue
  else if String.eqb unit "month" then num_lit 12 / periodValue
  else if String.eqb unit "quarter" then num_lit 4 / periodValue
  else num_lit 1 / periodValue.

(** The interest of one tier in the compound loop. *)
Definition compoundTierInterest (compoundFrequency unit : string)
    (periodValue amountInTier rate : num) : num :=
  let compoundsPerYear := compoundsPerYear compoundFrequency in
  let timeInYears := timeInYears unit periodValue in
  let rateDecimal := rate / num_lit 100 in
  let compoundFactor :=
    Math_pow (num_lit 1 + rateDecimal / compoundsPerYear)
             (compoundsPerYear * timeInYears) in
  let finalAmount := amountInTier * compoundFactor in
  finalAmount - amountInTier.

(** The interest of one tier in the simple loop. *)
Definition simpleTierInterest (unit : string)
    (periodValue amountInTier rate : num) : num :=
  let periodFactor := timeInYears unit periodValue in
  let annualInterest := amountInTier * (rate / num_lit 100) in
  annualInterest * periodFactor.

(** The [for] loop over [currentTiers], from index [i] on; [tiers] are the
    tiers from [i] on and [prevTierMax] is [currentTiers[i-1].maxAmount]
    ([0] when [i] is [0]).  The compound and the simple loop of the source
    differ only in how a tier's interest is computed, which is
    [tierInterestOf]; both [break]s return the loop variables as they are.
    [rates] is the result of [interestRates.map(...)]: [rates[i]] is
    [undefined] past its end and at a hole. *)
Fixpoint tierLoop (tierInterestOf : num -> num -> num)
    (rates : list (option num)) (tiers : list (Tier num)) (i : nat)
    (prevTierMax : num) (vars : Loop num) : Loop num :=
  match tiers with
  | [] => vars
  | tier :: tiers' =>
      let rate := array_at rates i in
      let tierMax := maxAmount tier in
      let tierLimit := tierMax - prevTierMax in
      let amountInTier := Math_min (remainingAmount vars) tierLimit in
      if amountInTier <=? num_lit 0 then vars
      else
        let tierInterest := tierInterestOf amountInTier (to_number rate) in
        let vars' :=
          {| remainingAmount := remainingAmount vars - amountInTier;
             totalInterest_ := totalInterest_ vars + tierInterest;
             tierBreakdown_ :=
               tierBreakdown_ vars ++
               [{| tier := name tier; amount := amountInTier;
                   rate := rate; interest := tierInterest |}] |} in
        if remainingAmount vars' <=? num_lit 0 then vars'
        else tierLoop tierInterestOf rates tiers' (S i) tierMax vars'
  end.

(** [calculateInterest] from the point where its inputs are read:
    [depositAmount], [rates], [periodValue] and [currentTiers] are the
    constants of these names in the source, [rates] with its holes and
    [currentTiers] being [None] when there are no tiers to compute with (see
    [getCurrentTiers]); [now] is [new Date().toLocaleString()]. The three
    checks come first; the tiers are asked for after them. *)
Definition calculateInterest_run (depositAmount : num)
    (rates : list (option num)) (periodValue : num)
    (currentTiers : option (list (Tier num)))
    (st : State num) (now : string) : Outcome num :=
  if isNaN depositAmount || (depositAmount <=? num_lit 0) then
    {| alert := Some (Alert "Please enter a valid amount"); next := st |}
  else if array_some (fun rate => isNaN rate || (rate <? num_lit 0)) rates
  then
    {| alert := Some (Alert "Please enter valid interest rates");
       next := st |}
  else if isNaN periodValue || (periodValue <=? num_lit 0) then
    {| alert := Some (Alert "Please enter a valid time period");
       next := st |}
  else
    match currentTiers with
    | None =>
        {| alert := Some (Throws "TypeError"); next := st |}
    | Some currentTiers =>
        let unit := tp_unit (timePeriod st) in
        let start :=
          {| remainingAmount := depositAmount; totalInterest_ := num_lit 0;
             tierBreakdown_ := [] |} in
        let vars :=
          if isCompound st then
            tierLoop (compoundTierInterest (compoundFrequency st) unit
                        periodValue) rates currentTiers 0 (num_lit 0) start
          else
            tierLoop (simpleTierInterest unit periodValue)
                     rates currentTiers 0 (num_lit 0) start in
        let totalInterest := totalInterest_ vars in
        let effectiveRate := (totalInterest / depositAmount) * num_lit 100 in
        let annualizedEffectiveRate :=
          if String.eqb unit "year" && (periodValue === num_lit 1)
          then effectiveRate
          else effectiveRate * annualizationFactor unit periodValue in
        let newResult :=
          {| depositAmount := depositAmount;
             tierBreakdown := tierBreakdown_ vars;
             totalInterest := totalInterest;
             effectiveRate := annualizedEffectiveRate;
             totalAmount := depositAmount + totalInterest;
             date := now;
             r_rates := spread (interestRates st);
             r_thresholds := spread (tierThresholds st);
             r_timePeriod := timePeriod st;
             r_isCompound := isCompound st;
             r_compoundFrequency :=
               if isCompound st then Some (compoundFrequency st)
               else None |} in
        let updatedCalculations :=
          take 10 (newResult :: savedCalculations st) in
        {| alert := None;
           next := {| amountText := amountText st;
                      interestRates := interestRates st;
                      tierThresholds := tierThresholds st;
                      timePeriod := timePeriod st;
                      isCompound := isCompound st;
                      compoundFrequency := compoundFrequency st;
                      result := Some newResult;
                      savedCalculations := updatedCalculations |} |}
    end.

(** [calculateInterest] on rates without holes and on tiers that are
    there. *)
Definition calculateInterest_parsed (depositAmount : num)
    (rates : list num) (periodValue : num) (currentTiers : list (Tier num))
    (st : State num) (now : string) : Outcome num :=
  calculateInterest_run depositAmount (map Some rates) periodValue
    (Some currentTiers) st now.

Definition calculateInterest (st : State num) (now : string) : Outcome num :=
  calculateInterest_run
    (parseIndianFormat (amountText st))
    (array_map parseFloat (interestRates st))
    (parseFloat (JString (tp_value (timePeriod st))))
    (getCurrentTiers st) st now.

Definition clearHistory (st : State num) : Outcome num :=
  {| alert := None;
     next := {| amountText := amountText st;
                interestRates := interestRates st;
                tierThresholds := tierThresholds st;
                timePeriod := timePeriod st;
                isCompound := isCompound st;
                compoundFrequency := compoundFrequency st;
                result := result st;
                savedCalculations := [] |} |}.

(** [applyFromHistory(calc)] for a [calc] built by [calculateInterest],
    which has every field: a [null] or empty [compoundFrequency] leaves
    the current one. *)
Definition applyFromHistory (calc : Result num) (st : State num)
    : Outcome num :=
  {| alert := None;
     next := {| amountText := Number_toString (depositAmount calc);
                interestRates := r_rates calc;
                tierThresholds := r_thresholds calc;
                timePeriod := r_timePeriod calc;
                isCompound := r_isCompound calc;
                compoundFrequency :=
                  match r_compoundFrequency calc with
                  | Some f =>
                      if decide (f = "") then compoundFrequency st else f
                  | None => compoundFrequency st
                  end;
                result := result st;
                savedCalculations := savedCalculations st |} |}.

(** *** The user's actions *)

(** What the rendered page lets the user do. *)
Inductive Event :=
  | EvUpdateAmount (value : string)
  | EvUpdateInterestRate (index : nat) (value : string)
  | EvUpdateTierThreshold (index : nat) (value : string)
  | EvUpdateTimePeriodValue (value : string)
  | EvUpdateTimePeriodUnit (unit : string)
  | EvSetIsCompound (b : bool)
  | EvSetCompoundFrequency (frequency : string)
  | EvAddTier
  | EvRemoveTier (index : nat)
  | EvResetToDefaults
  | EvCalculateInterest (now : string)
  | EvClearHistory
  | EvApplyFromHistory (calc : Result num).

Definition setIsCompound (b : bool) (st : State num) : Outcome num :=
  {| alert := None;
     next := {| amountText := amountText st;
                interestRates := interestRates st;
                tierThresholds := tierThresholds st;
                timePeriod := timePeriod st;
                isCompound := b;
                compoundFrequency := compoundFrequency st;
                result := result st;
                savedCalculations := savedCalculations st |} |}.

Definition setCompoundFrequency (frequency : string) (st : State num)
    : Outcome num :=
  {| alert := None;
     next := {| amountText := amountText st;
                interestRates := interestRates st;
                tierThresholds := tierThresholds st;
                timePeriod := timePeriod st;
                isCompound := isCompound st;
                compoundFrequency := frequency;
                result := result st;
                savedCalculations := savedCalculations st |} |}.

Definition handle (ev : Event) (st : State num) : Outcome num :=
  match ev with
  | EvUpdateAmount value => updateAmount value st
  | EvUpdateInterestRate index value => updateInterestRate index value st
  | EvUpdateTierThreshold index value => updateTierThreshold index value st
  | EvUpdateTimePeriodValue value => updateTimePeriodValue value st
  | EvUpdateTimePeriodUnit unit => updateTimePeriodUnit unit st
  | EvSetIsCompound b => setIsCompound b st
  | EvSetCompoundFrequency frequency => setCompoundFrequency frequency st
  | EvAddTier => addTier st
  | EvRemoveTier index => removeTier index st
  | EvResetToDefaults => resetToDefaults st
  | EvCalculateInterest now => calculateInterest st now
  | EvClearHistory => clearHistory st
  | EvApplyFromHistory calc => applyFromHistory calc st
  end.

(** The events the page of state [st] can raise: the rows, and with them
    the [index] a row's handlers close over, come from
    [getCurrentTiers().map((tier, index) => ...)], and an entry of the
    history panel is one of [savedCalculations]. *)
Definition enabled (st : State num) (ev : Event) : Prop :=
  match ev with
  | EvUpdateInterestRate index _
  | EvUpdateTierThreshold index _
  | EvRemoveTier index => (index < length (tierThresholds st))%nat
  | EvApplyFromHistory calc => calc ∈ savedCalculations st
  | _ => True
  end.

(** The states reached from [st] by a run of the page whose events are
    all [allowed]. *)
Inductive run (allowed : Event -> Prop) (st : State num)
    : State num -> Prop :=
  | run_nil : run allowed st st
  | run_step st' ev :
      run allowed st st' -> allowed ev -> enabled st' ev ->
      run allowed st (next (handle ev st')).

(** The tier-editing operations. *)
Definition tier_edit (ev : Event) : Prop :=
  match ev with
  | EvUpdateTierThreshold _ _ | EvAddTier | EvRemoveTier _
  | EvResetToDefaults => True
  | _ => False
  end.

Definition any_event (ev : Event) : Prop := True.

End Component.

(** ** Vocabulary of the statements *)

Section Views.
Context {num : Type} `{JSNumber num}.
Local Open Scope js_scope.

(** A sum as JavaScript accumulates it: from [0], left to right. *)
Definition num_sum (l : list num) : num := fold_left num_add l (num_lit 0).

(** [isFinite(x)]: neither [NaN] nor an infinity. *)
Definition isFinite (x : num) : bool :=
  negb (isNaN x || (x === Infinity) || (x === num_lit 0 - Infinity)).

(** [a] and [b] differ by at most [tol]. *)
Definition within (tol a b : num) : bool :=
  (a - b <=? tol) && (b - a <=? tol).

Definition allocatedAmounts (r : Result num) : list num :=
  map amount (tierBreakdown r).

(** The amounts [tierLoop] allots, tier by tier: its allocation
    statements alone (see [tierLoop_breakdown]). *)
Fixpoint allocate (tiers : list (Tier num)) (prevTierMax remaining : num)
    : list num :=
  match tiers with
  | [] => []
  | tier :: tiers' =>
      let amountInTier :=
        Math_min remaining (maxAmount tier - prevTierMax) in
      if amountInTier <=? num_lit 0 then []
      else
        amountInTier ::
        (if remaining - amountInTier <=? num_lit 0 then []
         else allocate tiers' (maxAmount tier) (remaining - amountInTier))
  end.

(** The breakdown entries of the amounts allotted to the tiers from index
    [i] on. *)
Fixpoint entries_of (tierInterestOf : num -> num -> num) (rates : list num)
    (tiers : list (Tier num)) (i : nat) (amounts : list num)
    {struct amounts} : list (TierEntry num) :=
  match amounts, tiers with
  | amountInTier :: amounts', tier :: tiers' =>
      {| tier := name tier; amount := amountInTier; rate := rates !! i;
         interest := tierInterestOf amountInTier (to_number (rates !! i)) |}
      :: entries_of tierInterestOf rates tiers' (S i) amounts'
  | _, _ => []
  end.

(** The same entries for rates with holes, as [tierLoop] builds them. *)
Fixpoint entries_of_slots (tierInterestOf : num -> num -> num)
    (rates : list (option num)) (tiers : list (Tier num)) (i : nat)
    (amounts : list num) {struct amounts} : list (TierEntry num) :=
  match amounts, tiers with
  | amountInTier :: amounts', tier :: tiers' =>
      {| tier := name tier; amount := amountInTier;
         rate := array_at rates i;
         interest := tierInterestOf amountInTier
                       (to_number (array_at rates i)) |}
      :: entries_of_slots tierInterestOf rates tiers' (S i) amounts'
  | _, _ => []
  end.

(** The capacities [upper - lower] of the tiers, the first lower bound
    being [prevTierMax]. *)
Fixpoint capacities (tiers : list (Tier num)) (prevTierMax : num)
    : list num :=
  match tiers with
  | [] => []
  | tier :: tiers' =>
      (maxAmount tier - prevTierMax) :: capacities tiers' (maxAmount tier)
  end.

(** In the words of the specification: the sum of all finite tier
    capacities. *)
Definition finiteCapacity (tiers : list (Tier num)) : num :=
  num_sum (filter (fun c => isFinite c = true) (capacities tiers (num_lit 0))).

(** The claim of the specification on the allocated sum: it is within
    [1e-6] of [min(P, sum of all finite tier capacities)]. *)
Definition claimed_allocated_sum (P : num) (tiers : list (Tier num))
    (r : Result num) : bool :=
  within (num_lit 1 / num_lit 1000000)
    (num_sum (allocatedAmounts r)) (Math_min P (finiteCapacity tiers)).

(** Scaling by two is exact in the numbers [num]: it commutes with the
    multiplications, the additions and the divisions of the simple loop,
    and it keeps the outcome of the check of the duration value. Unrounded
    arithmetic is so. Binary64 is not: there these laws hold for the values
    whose doubles do not overflow and that are clear of the subnormal
    numbers, and they fail beyond. *)
Record doubling_exact : Prop := {
  dbl_mul : forall x y : num, x * (num_lit 2 * y) = num_lit 2 * (x * y);
  dbl_add :
    forall x y : num, num_lit 2 * (x + y) = num_lit 2 * x + num_lit 2 * y;
  dbl_div :
    forall (x : num) (k : Z), (0 < k)%Z ->
      (num_lit 2 * x) / num_lit k = num_lit 2 * (x / num_lit k);
  dbl_zero : num_lit 2 * num_lit 0 = num_lit 0 :> num;
  dbl_isNaN : forall x : num, isNaN (num_lit 2 * x) = isNaN x;
  dbl_le :
    forall x : num, (num_lit 2 * x <=? num_lit 0) = (x <=? num_lit 0);
}.

(** The threshold list ends with the ['Infinity'] sentinel and has at
    least two elements. *)
Definition thresholds_ok (thresholds : list jsval) : Prop :=
  last thresholds = Some (JString "Infinity") /\
  (2 <= length thresholds)%nat.

(** The input fails one of the three checks of [calculateInterest]: the
    principal is [NaN] or not positive, or some rate is [NaN] or negative,
    or the duration value is [NaN] or not positive. *)
Definition rejected (depositAmount : num) (rates : list num)
    (periodValue : num) : Prop :=
  (isNaN depositAmount = true \/ (depositAmount <=? num_lit 0) = true) \/
  (exists rate, rate ∈ rates /\
     (isNaN rate = true \/ (rate <? num_lit 0) = true)) \/
  (isNaN periodValue = true \/ (periodValue <=? num_lit 0) = true).

End Views.

Arguments doubling_exact num {_}.

(** ** Two models of JavaScript numbers *)

(** *** IEEE 754 binary64 *)

Module Binary64.

(** An integer literal; exact up to [2^53]. *)
Definition lit (z : Z) : PrimFloat.float :=
  match z with
  | Z0 => PrimFloat.zero
  | Zpos _ => PrimFloat.of_uint63 (Uint63.of_Z z)
  | Zneg p => PrimFloat.opp (PrimFloat.of_uint63 (Uint63.of_Z (Zpos p)))
  end.

(** [Math.min(x, y)]: [NaN] if either is, and [-0] is below [+0]. *)
Definition min (x y : PrimFloat.float) : PrimFloat.float :=
  if PrimFloat.is_nan x || PrimFloat.is_nan y then PrimFloat.nan
  else if PrimFloat.ltb x y then x
  else if PrimFloat.ltb y x then y
  else match PrimFloat.classify x with
       | FloatClass.NZero => x
       | _ => y
       end.

#[global] Instance number : JSNumber PrimFloat.float := {|
  num_lit := lit;
  Infinity := PrimFloat.infinity;
  NaN := PrimFloat.nan;
  isNaN := PrimFloat.is_nan;
  num_add := PrimFloat.add;
  num_sub := PrimFloat.sub;
  num_mul := PrimFloat.mul;
  num_div := PrimFloat.div;
  num_le := PrimFloat.leb;
  num_lt := PrimFloat.ltb;
  num_eq := PrimFloat.eqb;
  Math_min := min;
|}.

(** A stand-in for [Math.pow], whose result the language leaves to the
    implementation, for runs in Simple mode: they never call it (see
    [simple_mode_ignores_pow]). *)
Definition pow_unused (_ _ : PrimFloat.float) : PrimFloat.float :=
  PrimFloat.nan.

(** [2^1023], the largest power of two in binary64, about [8.99e307];
    twice it overflows to [Infinity]. *)
Definition two_to_1023 : PrimFloat.float :=
  PrimFloat.ldshiftexp PrimFloat.one (Uint63.of_Z (1023 + 2101)).

(** A stand-in for [Math.pow] on the exponent 2, as [x * x]: whatever
    finite value above 1 an implementation returns for [pow(1.075, 2)]
    gives the runs that use it the same special values. *)
Definition pow_square (x y : PrimFloat.float) : PrimFloat.float :=
  if PrimFloat.eqb y (lit 2) then PrimFloat.mul x x else PrimFloat.nan.

End Binary64.

(** *** Extended rationals, unrounded *)

(** JavaScript's numbers without the rounding: a rational or one of the
    three special values, with the sign rules of IEEE 754 for the
    infinities and [NaN]. The laws of algebra hold in it, which binary64
    has only up to rounding: the statements proved over it say so, and
    [Binary64] runs the code bit for bit on concrete inputs next to them. *)
Module Exact.

Inductive xnum :=
  | Fin (q : Qc)
  | PosInf
  | NegInf
  | XNaN.

Definition lit (z : Z) : xnum := Fin (Q2Qc (inject_Z z)).

(** The sign of a number that is not [NaN]. *)
Definition sign (x : xnum) : comparison :=
  match x with
  | Fin q => (q ?= 0)%Qc
  | PosInf => Gt
  | NegInf => Lt
  | XNaN => Eq
  end.

(** The infinity of a sign; [NaN] for no sign, as in [0 * Infinity]. *)
Definition inf_of (s : comparison) : xnum :=
  match s with
  | Gt => PosInf
  | Lt => NegInf
  | Eq => XNaN
  end.

Definition sign_mul (s t : comparison) : comparison :=
  match s, t with
  | Eq, _ | _, Eq => Eq
  | Gt, Gt | Lt, Lt => Gt
  | Gt, Lt | Lt, Gt => Lt
  end.

Definition is_nan (x : xnum) : bool :=
  match x with XNaN => true | _ => false end.

Definition opp (x : xnum) : xnum :=
  match x with
  | Fin q => Fin (- q)%Qc
  | PosInf => NegInf
  | NegInf => PosInf
  | XNaN => XNaN
  end.

Definition add (x y : xnum) : xnum :=
  match x, y with
  | XNaN, _ | _, XNaN => XNaN
  | Fin a, Fin b => Fin (a + b)%Qc
  | PosInf, NegInf | NegInf, PosInf => XNaN
  | PosInf, _ | _, PosInf => PosInf
  | NegInf, _ | _, NegInf => NegInf
  end.

Definition sub (x y : xnum) : xnum := add x (opp y).

Definition mul (x y : xnum) : xnum :=
  match x, y with
  | XNaN, _ | _, XNaN => XNaN
  | Fin a, Fin b => Fin (a * b)%Qc
  | _, _ => inf_of (sign_mul (sign x) (sign y))
  end.

(** There is one zero, and it counts as positive in [x / 0]. *)
Definition div (x y : xnum) : xnum :=
  match x, y with
  | XNaN, _ | _, XNaN => XNaN
  | Fin a, Fin b =>
      if Qc_eq_dec b 0%Qc then inf_of (sign x) else Fin (a / b)%Qc
  | Fin _, _ => Fin 0%Qc
  | _, Fin b =>
      if Qc_eq_dec b 0%Qc then x else inf_of (sign_mul (sign x) (sign y))
  | _, _ => XNaN
  end.

Definition le (x y : xnum) : bool :=
  match x, y with
  | XNaN, _ | _, XNaN => false
  | Fin a, Fin b => match (a ?= b)%Qc with Gt => false | _ => true end
  | NegInf, _ | _, PosInf => true
  | _, _ => false
  end.

Definition lt (x y : xnum) : bool :=
  match x, y with
  | XNaN, _ | _, XNaN => false
  | Fin a, Fin b => match (a ?= b)%Qc with Lt => true | _ => false end
  | PosInf, _ | _, NegInf => false
  | _, _ => true
  end.

Definition eq (x y : xnum) : bool :=
  match x, y with
  | Fin a, Fin b => match (a ?= b)%Qc with Eq => true | _ => false end
  | PosInf, PosInf | NegInf, NegInf => true
  | _, _ => false
  end.

Definition min (x y : xnum) : xnum :=
  if is_nan x || is_nan y then XNaN
  else if le x y then x else y.

(** [Math.pow(x, y)] where it is exact: a finite base and a whole,
    non-negative exponent. Elsewhere it is left open ([NaN] here). *)
Definition pow_whole (x y : xnum) : xnum :=
  match x, y with
  | Fin a, Fin b =>
      match Qnum (this b), Qden (this b) with
      | Z0, 1%positive => Fin 1%Qc
      | Zpos n, 1%positive => Fin (a ^ Pos.to_nat n)%Qc
      | _, _ => XNaN
      end
  | _, _ => XNaN
  end.

(** [Number.prototype.toString] on whole numbers and the special values;
    a fraction is outside this stand-in and is shown as a quotient. *)
Definition toString_whole (x : xnum) : string :=
  match x with
  | Fin q =>
      match Qden (this q) with
      | 1%positive => pretty (Qnum (this q))
      | den => pretty (Qnum (this q)) +:+ "/" +:+ pretty (Zpos den)
      end
  | PosInf => "Infinity"
  | NegInf => "-Infinity"
  | XNaN => "NaN"
  end.

(** The finite boundaries [bs] are strictly increasing and above [lo]. *)
Fixpoint increasing_from (lo : Qc) (bs : list Qc) : bool :=
  match bs with
  | [] => true
  | b :: bs' => lt (Fin lo) (Fin b) && increasing_from b bs'
  end.

(** The highest of the increasing boundaries [bs]; [lo] if there is
    none. *)
Fixpoint top_from (lo : Qc) (bs : list Qc) : Qc :=
  match bs with
  | [] => lo
  | b :: bs' => top_from b bs'
  end.

#[global] Instance number : JSNumber xnum := {|
  num_lit := lit;
  Infinity := PosInf;
  NaN := XNaN;
  isNaN := is_nan;
  num_add := add;
  num_sub := sub;
  num_mul := mul;
  num_div := div;
  num_le := le;
  num_lt := lt;
  num_eq := eq;
  Math_min := min;
|}.

End Exact.

(** ** Scenarios *)

Section Scenarios.
Context {num : Type} `{JSNumber num}.
Local Open Scope js_scope.

(** [parseFloat] on plain decimal literals and on ['Infinity']; what else
    it reads is outside this stand-in, which answers [NaN]. On those
    literals it is exact in the exact model. *)
Definition parseFloat_plain (v : jsval) : num :=
  match v with
  | JString s =>
      if decide (s = "Infinity") then Infinity
      else match plain_decimal s 0 None false with
           | Some (m, k) => num_lit m / num_lit (10 ^ Z.of_nat k)
           | None => NaN
           end
  | _ => NaN
  end.

(** A stand-in for [formatAmount] that leaves the text as it is. *)
Definition formatAmount_text (v : jsval) : string :=
  match v with
  | JString s => s
  | _ => "undefined"
  end.

(** The state of the first render: default tiers and rates, no input. *)
Definition initial_state : State num :=
  {| amountText := "";
     interestRates := defaultRates;
     tierThresholds := defaultThresholds;
     timePeriod := {| tp_value := "1"; tp_unit := "year" |};
     isCompound := false;
     compoundFrequency := "annually";
     result := None;
     savedCalculations := [] |}.

(** Tiers with the given upper bounds, as [getCurrentTiers] builds them
    from thresholds that parse to [bounds]; the labels stand for those of
    [getTierNames]. *)
Definition tiers_of (bounds : list num) : list (Tier num) :=
  imap (fun i b => {| maxAmount := b; name := "tier " +:+ pretty (S i) |})
    bounds.

(** The component's state for the scenario of the specification: three
    tiers, one year, Simple mode, no history. *)
Definition scenario_state : State num :=
  {| amountText := "600000";
     interestRates := [JString "4.00"; JString "6.25"; JString "7.50"];
     tierThresholds :=
       [JString "100000"; JString "500000"; JString "Infinity"];
     timePeriod := {| tp_value := "1"; tp_unit := "year" |};
     isCompound := false;
     compoundFrequency := "annually";
     result := None;
     savedCalculations := [] |}.

(** What its rates parse to: [4.00], [6.25] and [7.50]. *)
Definition scenario_rates : list num :=
  [num_lit 4; num_lit 625 / num_lit 100; num_lit 75 / num_lit 10].

Definition scenario_tiers : list (Tier num) :=
  tiers_of [num_lit 100000; num_lit 500000; Infinity].

(** What the specification expects of the scenario's outcome [o]. *)
Definition scenario_expected (o : Outcome num) : Prop :=
  alert o = None /\
  exists r,
    result (next o) = Some r /\
    map tier (tierBreakdown r) = ["tier 1"; "tier 2"; "tier 3"] /\
    allocatedAmounts r =
      [num_lit 100000; num_lit 400000; num_lit 100000] /\
    map interest (tierBreakdown r) =
      [num_lit 4000; num_lit 25000; num_lit 7500] /\
    totalInterest r = num_lit 36500 /\
    totalAmount r = num_lit 636500 /\
    within (num_lit 1 / num_lit 10000)
      (effectiveRate r) (num_lit 60833 / num_lit 10000) = true.

(** The outcome [o] of the scenario allots all of the principal, 600000,
    although the finite tier capacities sum to 500000: the allocated sum
    is not within [1e-6] of the smaller of the two. *)
Definition allots_beyond_finite_capacity (o : Outcome num) : Prop :=
  exists r,
    result (next o) = Some r /\
    num_sum (allocatedAmounts r) = num_lit 600000 /\
    finiteCapacity scenario_tiers = num_lit 500000 /\
    claimed_allocated_sum (num_lit 600000) scenario_tiers r = false.

(** The outcome [o] is a result whose breakdown is the first tier alone,
    with [allotted] in it: no alert is raised, and the third tier is not in
    the breakdown. *)
Definition only_first_tier (o : Outcome num) (allotted : num) : Prop :=
  alert o = None /\
  exists r,
    result (next o) = Some r /\
    map tier (tierBreakdown r) = ["tier 1"] /\
    ("tier 3" ∉ map tier (tierBreakdown r)) /\
    allocatedAmounts r = [allotted].

(** The outcome [o] is a result, with an infinite total interest. *)
Definition infinite_result (o : Outcome num) : Prop :=
  alert o = None /\
  exists r,
    result (next o) = Some r /\
    totalInterest r = Infinity /\ totalAmount r = Infinity.

(** Boundaries with decimals: 100000.1, 500000.3 and the sentinel. *)
Definition decimal_tiers : list (Tier num) :=
  tiers_of [num_lit 1000001 / num_lit 10; num_lit 5000003 / num_lit 10;
            Infinity].

(** The outcome [o] for the principal [P] uses the principal up (what
    remains after subtracting the amounts one after the other is zero), yet
    the sum of its amounts is not within [1e-6] of [P]. *)
Definition sum_misses_principal (P : num) (o : Outcome num) : Prop :=
  exists r,
    result (next o) = Some r /\
    fold_left num_sub (allocatedAmounts r) P = num_lit 0 /\
    within (num_lit 1 / num_lit 1000000) (num_sum (allocatedAmounts r)) P
      = false /\
    claimed_allocated_sum P decimal_tiers r = false.

(** Of the outcomes [o], for some duration, and [o'], for twice that
    duration: both are results, the total interest of [o] is finite and
    that of [o'] is [Infinity], not twice that of [o]. *)
Definition doubling_overflows (o o' : Outcome num) : Prop :=
  alert o = None /\ alert o' = None /\
  exists r r',
    result (next o) = Some r /\
    result (next o') = Some r' /\
    isFinite (totalInterest r) = true /\
    totalInterest r' = Infinity /\
    (totalInterest r' === num_lit 2 * totalInterest r) = false.

(** The same state in Compound mode, compounding yearly. *)
Definition compound_state : State num :=
  {| amountText := "600000";
     interestRates := [JString "4.00"; JString "6.25"; JString "7.50"];
     tierThresholds :=
       [JString "100000"; JString "500000"; JString "Infinity"];
     timePeriod := {| tp_value := "2"; tp_unit := "year" |};
     isCompound := true;
     compoundFrequency := "annually";
     result := None;
     savedCalculations := [] |}.

(** Of the outcome [o] of a run compounded yearly over two years, with
    [pow] for [Math.pow]: it is a result whose third entry has the amount
    [Infinity] and an interest of [NaN], where the formula
    [A * (pow(1 + (r/100)/n, n*t) - 1)] gives [Infinity]. *)
Definition infinite_amount_earns_NaN (pow : num -> num -> num)
    (o : Outcome num) : Prop :=
  alert o = None /\
  exists r e,
    result (next o) = Some r /\
    tierBreakdown r !! 2%nat = Some e /\
    amount e = Infinity /\
    isNaN (interest e) = true /\
    amount e *
    (pow (num_lit 1 + (to_number (rate e) / num_lit 100)
                      / compoundsPerYear "annually")
         (compoundsPerYear "annually" * timeInYears "year" (num_lit 2))
     - num_lit 1) = Infinity.

(** A zero-width second tier: the first two boundaries are equal. *)
Definition zero_width_tiers : list (Tier num) :=
  tiers_of [num_lit 100000; num_lit 100000; Infinity].

(** Boundaries that decrease. *)
Definition decreasing_tiers : list (Tier num) :=
  tiers_of [num_lit 500000; num_lit 100000; Infinity].

(** The unbounded sentinel before the last position. *)
Definition early_sentinel_tiers : list (Tier num) :=
  tiers_of [num_lit 100000; Infinity; num_lit 500000].

End Scenarios.

(** ** Vocabulary of the further properties *)

(** Every character of [s] is a digit or a dot. *)
Fixpoint all_number_chars (s : string) : bool :=
  match s with
  | EmptyString => true
  | String c rest => is_number_char c && all_number_chars rest
  end.

Section MoreViews.
Context {num : Type} `{JSNumber num}.
Variable parseFloat : jsval -> num.
Local Open Scope js_scope.

(** The upper bound [getCurrentTiers] reads from a threshold. *)
Definition threshold_value (threshold : jsval) : num :=
  if decide (threshold = JString "Infinity") then Infinity
  else parseFloat (read threshold).

(** The upper bounds of the tiers of state [st], as [getCurrentTiers]
    reads them. *)
Definition tier_bounds (st : State num) : list num :=
  map threshold_value (tierThresholds st).

(** Thresholds and rates that fit together: the sentinel is last, there
    are two to ten thresholds, as many rates, and no hole. *)
Definition config_ok (thresholds rates : list jsval) : Prop :=
  thresholds_ok thresholds /\
  (length thresholds <= 10)%nat /\
  length rates = length thresholds /\
  no_holes thresholds /\
  no_holes rates.

(** The configuration of the page and those kept in its history fit
    together. *)
Definition page_ok (st : State num) : Prop :=
  config_ok (tierThresholds st) (interestRates st) /\
  Forall (fun r => config_ok (r_thresholds r) (r_rates r))
    (savedCalculations st).

(** The history is empty or starts with the result on display. *)
Definition history_shows_result (st : State num) : Prop :=
  savedCalculations st = [] \/
  head (savedCalculations st) = result st.

(** A state whose rates fell out of step with its thresholds, as a stored
    configuration may be: four thresholds, two rates. *)
Definition out_of_step_state : State num :=
  {| amountText := "";
     interestRates := [JString "5.00"; JString "6.00"];
     tierThresholds := defaultThresholds;
     timePeriod := {| tp_value := "1"; tp_unit := "year" |};
     isCompound := false;
     compoundFrequency := "annually";
     result := None;
     savedCalculations := [] |}.

(** A state with holes, as the page leaves it when a rate is typed into
    the last row of [out_of_step_state]: the write at index 3 of two rates
    leaves a hole at index 2. *)
Definition sparse_state : State num :=
  next (updateInterestRate 3 "7.00" out_of_step_state).

End MoreViews.

(** ** Facts that hold in every model of numbers *)

Section Generic.
Context {num : Type} `{JSNumber num}.
Variable Math_pow : num -> num -> num.
Local Open Scope js_scope.

(** How a tier's interest is computed in the mode of state [st]. *)
Definition tierInterest (st : State num) (periodValue : num)
    : num -> num -> num :=
  if isCompound st then
    compoundTierInterest Math_pow (compoundFrequency st)
      (tp_unit (timePeriod st)) periodValue
  else simpleTierInterest (tp_unit (timePeriod st)) periodValue.

Lemma tierLoop_breakdown f rates tiers :
  forall i prev vars,
    tierBreakdown_ (tierLoop f rates tiers i prev vars) =
    tierBreakdown_ vars ++
    entries_of_slots f rates tiers i
      (allocate tiers prev (remainingAmount vars)).
Proof.
  induction tiers as [|t tiers IH]; intros i prev vars; simpl.
  - now rewrite app_nil_r.
  - destruct (Math_min _ _ <=? _); [now rewrite app_nil_r|].
    destruct (_ - _ <=? _); simpl; [reflexivity|].
    rewrite IH. simpl. now rewrite <- app_assoc.
Qed.

Lemma tierLoop_total f rates tiers :
  forall i prev vars,
    totalInterest_ (tierLoop f rates tiers i prev vars) =
    fold_left (fun total e => total + interest e)
      (entries_of_slots f rates tiers i
         (allocate tiers prev (remainingAmount vars)))
      (totalInterest_ vars).
Proof.
  induction tiers as [|t tiers IH]; intros i prev vars; simpl; [reflexivity|].
  destruct (Math_min _ _ <=? _); [reflexivity|].
  destruct (_ - _ <=? _); simpl; [reflexivity|].
  now rewrite IH.
Qed.

(** On rates without holes the two readings of the entries agree. *)
Lemma entries_of_slots_dense f (rates : list num) tiers :
  forall i amounts,
    entries_of_slots f (map Some rates) tiers i amounts =
    entries_of f rates tiers i amounts.
Proof.
  induction tiers as [|t tiers IH]; intros i [|a amounts];
    simpl; try reflexivity.
  unfold array_at. change (map Some rates) with (Some <$> rates).
  rewrite list_lookup_fmap, IH.
  now destruct (rates !! i).
Qed.

Lemma array_some_dense (p : num -> bool) (rates : list num) :
  array_some p (map Some rates) = existsb p rates.
Proof.
  unfold array_some. f_equal.
  induction rates as [|x rates IH]; [reflexivity|].
  cbn. f_equal. exact IH.
Qed.

Lemma entries_of_amounts f rates tiers :
  forall i amounts,
    (length amounts <= length tiers)%nat ->
    map amount (entries_of f rates tiers i amounts) = amounts.
Proof.
  induction tiers as [|t tiers IH]; intros i [|a amounts] Hlen;
    simpl in *; try reflexivity; try lia.
  f_equal. apply IH. lia.
Qed.

Lemma allocate_length tiers :
  forall prev remaining,
    (length (allocate tiers prev remaining) <= length tiers)%nat.
Proof.
  induction tiers as [|t tiers IH]; intros prev remaining; simpl; [lia|].
  destruct (Math_min _ _ <=? _); simpl; [lia|].
  destruct (_ - _ <=? _); simpl; [lia|].
  specialize (IH (maxAmount t) (remaining - Math_min remaining
                                  (maxAmount t - prev))). lia.
Qed.

Lemma allocate_positive tiers :
  forall prev remaining a,
    a ∈ allocate tiers prev remaining -> (a <=? num_lit 0) = false.
Proof.
  induction tiers as [|t tiers IH]; intros prev remaining a Ha; simpl in Ha.
  - now apply elem_of_nil in Ha.
  - destruct (Math_min remaining (maxAmount t - prev) <=? num_lit 0) eqn:E;
      [now apply elem_of_nil in Ha|].
    apply elem_of_cons in Ha as [->|Ha]; [exact E|].
    destruct (_ - _ <=? _); [now apply elem_of_nil in Ha|].
    eapply IH, Ha.
Qed.

Lemma entries_of_tiers f rates tiers :
  forall i amounts,
    map tier (entries_of f rates tiers i amounts) =
    map name (take (length amounts) tiers).
Proof.
  induction tiers as [|t tiers IH]; intros i [|a amounts];
    simpl; try reflexivity.
  f_equal. apply IH.
Qed.

Lemma entries_of_interest f rates tiers :
  forall i amounts e,
    e ∈ entries_of f rates tiers i amounts ->
    interest e = f (amount e) (to_number (rate e)).
Proof.
  induction tiers as [|t tiers IH]; intros i [|a amounts] e He;
    simpl in *; try (now apply elem_of_nil in He).
  apply elem_of_cons in He as [-> | He]; [reflexivity|].
  eapply IH, He.
Qed.

Lemma capacities_length (tiers : list (Tier num)) :
  forall prev, length (capacities tiers prev) = length tiers.
Proof.
  induction tiers as [|t tiers IH]; intros prev; simpl;
    [reflexivity|now rewrite IH].
Qed.

(** The run of [calculateInterest] on inputs that pass its checks, the
    tiers being there. *)
Lemma calculateInterest_run_accepted d rates pv tiers st now :
  alert (calculateInterest_run Math_pow d rates pv (Some tiers) st now)
    = None ->
  exists r,
    next (calculateInterest_run Math_pow d rates pv (Some tiers) st now) =
      {| amountText := amountText st;
         interestRates := interestRates st;
         tierThresholds := tierThresholds st;
         timePeriod := timePeriod st;
         isCompound := isCompound st;
         compoundFrequency := compoundFrequency st;
         result := Some r;
         savedCalculations := take 10 (r :: savedCalculations st) |} /\
    depositAmount r = d /\
    tierBreakdown r =
      entries_of_slots (tierInterest st pv) rates tiers 0
        (allocate tiers (num_lit 0) d) /\
    totalInterest r =
      fold_left (fun total e => total + interest e) (tierBreakdown r)
        (num_lit 0) /\
    effectiveRate r =
      (if String.eqb (tp_unit (timePeriod st)) "year" && (pv === num_lit 1)
       then (totalInterest r / d) * num_lit 100
       else (totalInterest r / d) * num_lit 100
            * annualizationFactor (tp_unit (timePeriod st)) pv) /\
    totalAmount r = d + totalInterest r /\
    r_rates r = spread (interestRates st) /\
    r_thresholds r = spread (tierThresholds st) /\
    r_timePeriod r = timePeriod st /\
    r_isCompound r = isCompound st /\
    r_compoundFrequency r =
      (if isCompound st then Some (compoundFrequency st) else None).
Proof.
  unfold calculateInterest_run, tierInterest.
  destruct (isNaN d || (d <=? num_lit 0)); [discriminate|].
  destruct (array_some _ rates); [discriminate|].
  destruct (isNaN pv || (pv <=? num_lit 0)); [discriminate|].
  intros _. eexists. split; [reflexivity|]. simpl.
  destruct (isCompound st);
    rewrite !tierLoop_breakdown, !tierLoop_total; simpl;
    repeat split; reflexivity.
Qed.

(** Without tiers to compute with, an input that passes the checks ends
    in a [TypeError]; whether an alert is raised does not depend on the
    tiers. *)
Lemma calculateInterest_run_throws d rates pv st now :
  alert (calculateInterest_run Math_pow d rates pv None st now) <> None /\
  next (calculateInterest_run Math_pow d rates pv None st now) = st.
Proof.
  unfold calculateInterest_run.
  destruct (isNaN d || (d <=? num_lit 0)); [now split|].
  destruct (array_some _ rates); [now split|].
  destruct (isNaN pv || (pv <=? num_lit 0)); now split.
Qed.

(** The run of [calculateInterest] on parsed inputs that pass its
    checks. *)
Lemma calculateInterest_parsed_accepted d rates pv tiers st now :
  alert (calculateInterest_parsed Math_pow d rates pv tiers st now) = None ->
  exists r,
    next (calculateInterest_parsed Math_pow d rates pv tiers st now) =
      {| amountText := amountText st;
         interestRates := interestRates st;
         tierThresholds := tierThresholds st;
         timePeriod := timePeriod st;
         isCompound := isCompound st;
         compoundFrequency := compoundFrequency st;
         result := Some r;
         savedCalculations := take 10 (r :: savedCalculations st) |} /\
    depositAmount r = d /\
    tierBreakdown r =
      entries_of (tierInterest st pv) rates tiers 0
        (allocate tiers (num_lit 0) d) /\
    totalInterest r =
      fold_left (fun total e => total + interest e) (tierBreakdown r)
        (num_lit 0) /\
    effectiveRate r =
      (if String.eqb (tp_unit (timePeriod st)) "year" && (pv === num_lit 1)
       then (totalInterest r / d) * num_lit 100
       else (totalInterest r / d) * num_lit 100
            * annualizationFactor (tp_unit (timePeriod st)) pv) /\
    totalAmount r = d + totalInterest r /\
    r_thresholds r = spread (tierThresholds st).
Proof.
  unfold calculateInterest_parsed. intros Halert.
  destruct (calculateInterest_run_accepted _ _ _ _ _ _ Halert)
    as (r & Hnext & Hd & Hbd & Htot & Heff & Hamount & _ & Hths & _).
  exists r. rewrite entries_of_slots_dense in Hbd.
  repeat split; assumption.
Qed.

(** In every model each breakdown entry carries the interest of its
    tier, computed as the loop of its mode computes it. *)
Lemma breakdown_interest d rates pv tiers st now r e :
  alert (calculateInterest_parsed Math_pow d rates pv tiers st now) = None ->
  result (next (calculateInterest_parsed Math_pow d rates pv tiers st now))
    = Some r ->
  e ∈ tierBreakdown r ->
  interest e = tierInterest st pv (amount e) (to_number (rate e)).
Proof.
  intros Halert Hres He.
  destruct (calculateInterest_parsed_accepted _ _ _ _ _ _ Halert)
    as (r0 & Hnext & _ & Hbd & _).
  rewrite Hnext in Hres. injection Hres as <-.
  rewrite Hbd in He. eapply entries_of_interest, He.
Qed.

(** In every model the effective rate is the raw rate for one year, and
    the raw rate times the annualization factor otherwise. *)
Lemma effectiveRate_cases d rates pv tiers st now r :
  alert (calculateInterest_parsed Math_pow d rates pv tiers st now) = None ->
  result (next (calculateInterest_parsed Math_pow d rates pv tiers st now))
    = Some r ->
  effectiveRate r =
    (if String.eqb (tp_unit (timePeriod st)) "year" && (pv === num_lit 1)
     then totalInterest r / depositAmount r * num_lit 100
     else totalInterest r / depositAmount r * num_lit 100
          * annualizationFactor (tp_unit (timePeriod st)) pv).
Proof.
  intros Halert Hres.
  destruct (calculateInterest_parsed_accepted _ _ _ _ _ _ Halert)
    as (r0 & Hnext & Hd & _ & _ & Heff & _).
  rewrite Hnext in Hres. injection Hres as <-.
  now rewrite Hd.
Qed.

(** Simple mode never calls [Math.pow]: the outcome is the same whatever
    it is. *)
Lemma simple_mode_ignores_pow (pow' : num -> num -> num) d rates pv tiers
    st now :
  isCompound st = false ->
  calculateInterest_parsed Math_pow d rates pv tiers st now =
  calculateInterest_parsed pow' d rates pv tiers st now.
Proof.
  intros Hmode. unfold calculateInterest_parsed, calculateInterest_run.
  now rewrite Hmode.
Qed.

(** The checks of [calculateInterest], as a proposition. *)
Lemma calculateInterest_parsed_alert d rates pv tiers st now :
  alert (calculateInterest_parsed Math_pow d rates pv tiers st now) <> None
  <-> rejected d rates pv.
Proof.
  unfold calculateInterest_parsed, calculateInterest_run, rejected.
  rewrite array_some_dense.
  destruct (isNaN d) eqn:Ed; simpl; [intuition congruence|].
  destruct (d <=? num_lit 0) eqn:Ed'; simpl; [intuition congruence|].
  destruct (existsb _ rates) eqn:Er; simpl.
  { split; [intros _|congruence]. right; left.
    apply existsb_exists in Er as (rate & Hin & Hr).
    exists rate. split; [now apply list_elem_of_In|].
    now apply orb_true_iff in Hr. }
  assert (Hrates : ~ exists rate, rate ∈ rates /\
            (isNaN rate = true \/ (rate <? num_lit 0) = true)).
  { intros (rate & Hin & Hr).
    assert (existsb (fun rate => isNaN rate || (rate <? num_lit 0)) rates
            = true) as Hex; [|congruence].
    apply existsb_exists. exists rate.
    split; [now apply list_elem_of_In|now apply orb_true_iff]. }
  destruct (isNaN pv) eqn:Ep; simpl; [intuition congruence|].
  destruct (pv <=? num_lit 0) eqn:Ep'; simpl; [intuition congruence|].
  split; [congruence|].
  intros [[?|?]|[?|[?|?]]]; congruence || tauto.
Qed.

Lemma calculateInterest_parsed_rejected_run d rates pv tiers st now :
  alert (calculateInterest_run Math_pow d rates pv (Some tiers) st now)
    <> None ->
  next (calculateInterest_run Math_pow d rates pv (Some tiers) st now) = st.
Proof.
  unfold calculateInterest_run.
  destruct (isNaN d || (d <=? num_lit 0)); [reflexivity|].
  destruct (array_some _ _); [reflexivity|].
  destruct (isNaN pv || (pv <=? num_lit 0)); [reflexivity|].
  simpl. congruence.
Qed.

Lemma calculateInterest_parsed_rejected d rates pv tiers st now :
  alert (calculateInterest_parsed Math_pow d rates pv tiers st now) <> None ->
  next (calculateInterest_parsed Math_pow d rates pv tiers st now) = st.
Proof. apply calculateInterest_parsed_rejected_run. Qed.

(** *** Doubling the duration *)

Lemma timeInYears_double (Hexact : doubling_exact num) (unit : string)
    (pv : num) :
  timeInYears unit (num_lit 2 * pv) = num_lit 2 * timeInYears unit pv.
Proof.
  unfold timeInYears.
  repeat (destruct (String.eqb unit _);
          [now apply (dbl_div Hexact)|]).
  reflexivity.
Qed.

Lemma simpleTierInterest_double (Hexact : doubling_exact num)
    (unit : string) (pv a r : num) :
  simpleTierInterest unit (num_lit 2 * pv) a r =
  num_lit 2 * simpleTierInterest unit pv a r.
Proof.
  unfold simpleTierInterest. rewrite (timeInYears_double Hexact).
  apply (dbl_mul Hexact).
Qed.

Lemma fold_interest_double (Hexact : doubling_exact num)
    (f f' : num -> num -> num) (rates : list num) :
  (forall a r, f' a r = num_lit 2 * f a r) ->
  forall amounts tiers i acc,
    fold_left (fun total e => total + interest e)
      (entries_of f' rates tiers i amounts) (num_lit 2 * acc) =
    num_lit 2 *
      fold_left (fun total e => total + interest e)
        (entries_of f rates tiers i amounts) acc.
Proof.
  intros Hf. induction amounts as [|a amounts IH]; intros tiers i acc;
    [reflexivity|].
  destruct tiers as [|t tiers]; [reflexivity|].
  cbn [entries_of fold_left interest].
  rewrite Hf, <- (dbl_add Hexact). apply IH.
Qed.

(** Twice a duration that passes the check passes it. *)
Lemma rejected_double (Hexact : doubling_exact num) (d : num)
    (rates : list num) (pv : num) :
  rejected d rates (num_lit 2 * pv) -> rejected d rates pv.
Proof.
  unfold rejected. intros [Hd|[Hr|Hp]]; [now left|now right; left|].
  right; right.
  now rewrite (dbl_isNaN Hexact), (dbl_le Hexact) in Hp.
Qed.

End Generic.

(** ** Arithmetic of the exact model *)

Module ExactFacts.
Import Exact.

Lemma Qc_eq_Qeq (x y : Qc) : x = y <-> (this x == this y)%Q.
Proof. split; [intros ->; reflexivity | apply Qc_is_canon]. Qed.

Lemma this_Q2Qc (q : Q) : (this (Q2Qc q) == q)%Q.
Proof. apply Qred_correct. Qed.

Lemma this_plus (a b : Qc) : (this (a + b)%Qc == this a + this b)%Q.
Proof. apply Qred_correct. Qed.

Lemma this_opp (a : Qc) : (this (- a)%Qc == - this a)%Q.
Proof. apply Qred_correct. Qed.

Lemma this_mult (a b : Qc) : (this (a * b)%Qc == this a * this b)%Q.
Proof. apply Qred_correct. Qed.

Lemma this_inv (a : Qc) : (this (/ a)%Qc == / this a)%Q.
Proof. apply Qred_correct. Qed.

(** Moves a goal on [Qc] to [Q], where [lra] works. *)
Ltac qc2q :=
  rewrite ?Qc_eq_Qeq in *;
  unfold Qcdiv, Qclt, Qcle, Qcminus in *;
  repeat progress
    (rewrite ?this_plus, ?this_opp, ?this_mult, ?this_inv, ?this_Q2Qc
       in *);
  unfold inject_Z in *.
Ltac qc_lra := qc2q; lra.

Lemma Qc_compare_cases (a b : Qc) :
  CompareSpec (a = b) (a < b)%Qc (b < a)%Qc (a ?= b)%Qc.
Proof.
  destruct (a ?= b)%Qc eqn:E; constructor.
  - now apply Qceq_alt.
  - now apply Qclt_alt.
  - now apply Qcgt_alt in E.
Qed.

(** Settles the comparisons of rationals in the goal, by [lra]. *)
Ltac cmp :=
  repeat match goal with
  | |- context [(?a ?= ?b)%Qc] =>
      destruct (Qc_compare_cases a b); try (exfalso; qc_lra)
  | |- context [Qc_eq_dec ?a ?b] =>
      destruct (Qc_eq_dec a b); try (exfalso; qc_lra)
  end.

Lemma Fin_eq (a b : Qc) : (this a == this b)%Q -> Fin a = Fin b.
Proof. intros E. f_equal. now apply Qc_is_canon. Qed.

Lemma le_Fin (a b : Qc) : le (Fin a) (Fin b) = true <-> (a <= b)%Qc.
Proof.
  simpl. destruct (Qc_compare_cases a b); split; intros; try easy;
    try qc_lra.
Qed.

Lemma lt_Fin (a b : Qc) : lt (Fin a) (Fin b) = true <-> (a < b)%Qc.
Proof.
  simpl. destruct (Qc_compare_cases a b); split; intros; try easy;
    try qc_lra.
Qed.

Lemma eq_Fin (a b : Qc) : eq (Fin a) (Fin b) = true <-> a = b.
Proof.
  simpl. destruct (Qc_compare_cases a b); split; intros; try easy;
    try qc_lra.
Qed.

Lemma lit_0 : lit 0 = Fin 0%Qc.
Proof. reflexivity. Qed.

Lemma lit_1 : lit 1 = Fin 1%Qc.
Proof. reflexivity. Qed.

(** *** One step of the allocation *)

Section Allocation.
Variables (t : Tier xnum) (tiers : list (Tier xnum)).
Variables (lo b r : Qc).

(** The principal ends inside a bounded tier. *)
Lemma allocate_ends :
  maxAmount t = Fin b -> (lo < b)%Qc -> (0 < r)%Qc -> (r <= b - lo)%Qc ->
  allocate (t :: tiers) (Fin lo) (Fin r) = [Fin r].
Proof.
  intros Hmax Hlo Hr Hfit. simpl. rewrite Hmax. simpl.
  unfold min. simpl. cmp; simpl; cmp; reflexivity.
Qed.

(** The principal fills a bounded tier and goes on. *)
Lemma allocate_fills :
  maxAmount t = Fin b -> (lo < b)%Qc -> (b - lo < r)%Qc ->
  allocate (t :: tiers) (Fin lo) (Fin r) =
  Fin (b - lo)%Qc :: allocate tiers (Fin b) (Fin (r - (b - lo))%Qc).
Proof.
  intros Hmax Hlo Hr. simpl. rewrite Hmax. simpl.
  unfold min. simpl. cmp; simpl; cmp; reflexivity.
Qed.

(** The unbounded tier takes all that remains. *)
Lemma allocate_unbounded :
  maxAmount t = PosInf -> (0 < r)%Qc ->
  allocate (t :: tiers) (Fin lo) (Fin r) = [Fin r].
Proof.
  intros Hmax Hr. simpl. rewrite Hmax. simpl.
  unfold min. simpl. cmp; simpl; cmp; reflexivity.
Qed.

(** A tier of no positive width stops the allocation. *)
Lemma allocate_stops :
  maxAmount t = Fin b -> (b <= lo)%Qc -> (0 < r)%Qc ->
  allocate (t :: tiers) (Fin lo) (Fin r) = [].
Proof.
  intros Hmax Hlo Hr. simpl. rewrite Hmax. simpl.
  unfold min. simpl. cmp; simpl; cmp; reflexivity.
Qed.

End Allocation.

(** *** The allocation over increasing boundaries *)

Lemma increasing_top bs :
  forall lo, increasing_from lo bs = true -> (lo <= top_from lo bs)%Qc.
Proof.
  induction bs as [|b bs IH]; intros lo Hinc; simpl in *.
  - qc_lra.
  - apply andb_true_iff in Hinc as [Hlt Hinc].
    apply lt_Fin in Hlt. specialize (IH b Hinc). qc_lra.
Qed.

(** With an unbounded last tier every unit of the principal is
    allotted: in unrounded arithmetic the amounts sum to it. *)
Lemma allocate_sum bs :
  forall tiers lo r acc,
    map maxAmount tiers = map Fin bs ++ [PosInf] ->
    increasing_from lo bs = true -> (0 < r)%Qc ->
    fold_left add (allocate tiers (Fin lo) (Fin r)) (Fin acc)
    = Fin (acc + r)%Qc.
Proof.
  induction bs as [|b bs IH]; intros tiers lo r acc Hmax Hinc Hr;
    (destruct tiers as [|t tiers]; [discriminate|]);
    simpl in Hmax; injection Hmax as Hm Hrest.
  - rewrite allocate_unbounded by assumption. reflexivity.
  - simpl in Hinc. apply andb_true_iff in Hinc as [Hlt Hinc].
    apply lt_Fin in Hlt.
    destruct (Qclt_le_dec (b - lo) r) as [Hbig|Hfit].
    + rewrite (allocate_fills t tiers lo b r) by assumption.
      simpl fold_left. rewrite IH; [|assumption|assumption|qc_lra].
      apply Fin_eq. qc_lra.
    + rewrite (allocate_ends t tiers lo b r) by assumption. reflexivity.
Qed.

(** The capacities of such tiers sum to [Infinity]. *)
Lemma capacities_sum bs :
  forall tiers lo acc,
    map maxAmount tiers = map Fin bs ++ [PosInf] ->
    fold_left add (capacities tiers (Fin lo)) (Fin acc) = PosInf.
Proof.
  induction bs as [|b bs IH]; intros tiers lo acc Hmax;
    (destruct tiers as [|t tiers]; [discriminate|]);
    simpl in Hmax; injection Hmax as Hm Hrest.
  - destruct tiers; [|discriminate]. simpl. rewrite Hm. reflexivity.
  - simpl. rewrite Hm. simpl. apply IH. assumption.
Qed.

(** Tiers below the principal are filled to capacity, one after the
    other. *)
Lemma allocate_full_prefix bs :
  forall full rest lo r,
    map maxAmount full = map Fin bs ->
    increasing_from lo bs = true ->
    (top_from lo bs - lo < r)%Qc ->
    allocate (full ++ rest) (Fin lo) (Fin r) =
    capacities full (Fin lo) ++
    allocate rest (Fin (top_from lo bs))
      (Fin (r - (top_from lo bs - lo))%Qc).
Proof.
  induction bs as [|b bs IH]; intros full rest lo r Hmax Hinc Hr;
    destruct full as [|t full]; try discriminate; simpl in Hmax.
  - simpl. f_equal. apply Fin_eq. qc_lra.
  - injection Hmax as Hm Hrest.
    simpl in Hinc. apply andb_true_iff in Hinc as [Hlt Hinc].
    apply lt_Fin in Hlt. pose proof (increasing_top bs b Hinc) as Htop.
    simpl top_from in *.
    change ((t :: full) ++ rest) with (t :: (full ++ rest)).
    rewrite (allocate_fills t (full ++ rest) lo b r);
      [|assumption|assumption|qc_lra].
    rewrite IH; [|assumption|assumption|qc_lra].
    simpl capacities. rewrite Hm. simpl.
    do 3 f_equal. apply Fin_eq. qc_lra.
Qed.

(** Over increasing boundaries the allocation is a run of full tiers and
    one last amount. *)
Lemma allocate_greedy (bs : list Qc) :
  forall tiers lo r,
    map maxAmount tiers = map Fin bs ++ [PosInf] ->
    increasing_from lo bs = true -> (0 < r)%Qc ->
    exists k rest c,
      allocate tiers (Fin lo) (Fin r) =
        take k (capacities tiers (Fin lo)) ++ [Fin rest] /\
      (0 < rest)%Qc /\
      capacities tiers (Fin lo) !! k = Some c /\ le (Fin rest) c = true.
Proof.
  induction bs as [|b bs IH]; intros tiers lo r Hmax Hinc Hr;
    (destruct tiers as [|t tiers]; [discriminate|]);
    simpl in Hmax; injection Hmax as Hm Hrest.
  - exists 0%nat, r, PosInf.
    rewrite allocate_unbounded by assumption.
    simpl. rewrite Hm. repeat split; assumption.
  - simpl in Hinc. apply andb_true_iff in Hinc as [Hlt Hinc].
    apply lt_Fin in Hlt.
    destruct (Qclt_le_dec (b - lo) r) as [Hbig|Hfit].
    + destruct (IH tiers b (r - (b - lo))%Qc Hrest Hinc)
        as (k & rest & c & Halloc & Hpos & Hc & Hle); [qc_lra|].
      exists (S k), rest, c.
      rewrite (allocate_fills t tiers lo b r) by assumption.
      simpl capacities. rewrite Hm, Halloc. simpl.
      repeat split; assumption.
    + exists 0%nat, r, (Fin (b - lo)%Qc).
      rewrite (allocate_ends t tiers lo b r) by assumption.
      simpl. rewrite Hm. repeat split; try assumption.
      now apply le_Fin.
Qed.

(** The amounts use the principal up: subtracted from it one after the
    other, as the loop does with [remainingAmount], they leave exactly
    zero. *)
Lemma allocate_exhausts bs :
  forall tiers lo r,
    map maxAmount tiers = map Fin bs ++ [PosInf] ->
    increasing_from lo bs = true -> (0 < r)%Qc ->
    fold_left sub (allocate tiers (Fin lo) (Fin r)) (Fin r) = lit 0.
Proof.
  induction bs as [|b bs IH]; intros tiers lo r Hmax Hinc Hr;
    (destruct tiers as [|t tiers]; [discriminate|]);
    simpl in Hmax; injection Hmax as Hm Hrest.
  - rewrite allocate_unbounded by assumption. simpl.
    apply Fin_eq. qc_lra.
  - simpl in Hinc. apply andb_true_iff in Hinc as [Hlt Hinc].
    apply lt_Fin in Hlt.
    destruct (Qclt_le_dec (b - lo) r) as [Hbig|Hfit].
    + rewrite (allocate_fills t tiers lo b r) by assumption.
      cbn [fold_left].
      change (sub (Fin r) (Fin (b - lo)%Qc)) with (Fin (r - (b - lo))%Qc).
      apply IH; [assumption|assumption|qc_lra].
    + rewrite (allocate_ends t tiers lo b r) by assumption. simpl.
      apply Fin_eq. qc_lra.
Qed.

(** *** Algebra of the interest formulas *)

Ltac fin_ring := apply Fin_eq; qc2q; ring.

(** [A * f - A] is [A * (f - 1)] for a finite [A]. *)
Lemma compound_factor (a : Qc) (f : xnum) :
  sub (mul (Fin a) f) (Fin a) = mul (Fin a) (sub f (lit 1)).
Proof.
  destruct f as [q| | |]; simpl; try reflexivity.
  - fin_ring.
  - destruct (Qc_compare_cases a 0); reflexivity.
  - destruct (Qc_compare_cases a 0); reflexivity.
Qed.

Lemma mul_two_assoc (x y : xnum) :
  mul x (mul (lit 2) y) = mul (lit 2) (mul x y).
Proof.
  destruct x as [a| | |], y as [b| | |]; simpl; try reflexivity;
    cmp; simpl; cmp; try reflexivity; fin_ring.
Qed.

Lemma mul_two_add (x y : xnum) :
  mul (lit 2) (add x y) = add (mul (lit 2) x) (mul (lit 2) y).
Proof.
  destruct x as [a| | |], y as [b| | |]; simpl; try reflexivity;
    cmp; simpl; cmp; try reflexivity; fin_ring.
Qed.

Lemma div_two (v : xnum) (k : Qc) :
  (0 < k)%Qc ->
  div (mul (lit 2) v) (Fin k) = mul (lit 2) (div v (Fin k)).
Proof.
  intros Hk. destruct v as [q| | |]; simpl; try reflexivity;
    cmp; simpl; cmp; try reflexivity.
  all: f_equal; field; assumption.
Qed.

(** A number that passes the check [isNaN(x) || x <= 0]. *)
Lemma positive_cases (x : xnum) :
  is_nan x = false -> le x (lit 0) = false ->
  x = PosInf \/ exists q, x = Fin q /\ (0 < q)%Qc.
Proof.
  destruct x as [q| | |]; simpl; intros Hnan Hle; try discriminate.
  - right. exists q. split; [reflexivity|].
    destruct (Qc_compare_cases q (Q2Qc (inject_Z 0))); try discriminate.
    qc_lra.
  - now left.
Qed.

(** [k / v] is [1 / (v / k)] for a positive [v]. *)
Lemma annualization (v : xnum) (k : Qc) :
  (0 < k)%Qc -> is_nan v = false -> le v (lit 0) = false ->
  div (Fin k) v = div (lit 1) (div v (Fin k)).
Proof.
  intros Hk Hnan Hle.
  destruct (positive_cases v Hnan Hle) as [->|(q & -> & Hq)]; simpl.
  - cmp; simpl; cmp. reflexivity.
  - destruct (Qc_eq_dec q 0%Qc) as [->|Hq0]; [exfalso; qc_lra|].
    destruct (Qc_eq_dec k 0%Qc) as [->|Hk0]; [exfalso; qc_lra|].
    simpl.
    destruct (Qc_eq_dec (q / k)%Qc 0%Qc) as [E|_].
    + exfalso. apply Hq0.
      replace q with (q / k * k)%Qc by (field; assumption).
      rewrite E. ring.
    + f_equal. unfold lit. change (Q2Qc (inject_Z 1)) with 1%Qc.
      field. split; assumption.
Qed.

(** *** Doubling the duration *)

(** Scaling by two is exact in unrounded arithmetic. *)
Lemma exact_doubling : doubling_exact xnum.
Proof.
  split.
  - exact mul_two_assoc.
  - exact mul_two_add.
  - intros x k Hk. apply div_two. qc2q. unfold Qlt. simpl. lia.
  - apply Fin_eq. reflexivity.
  - now intros [q| | |].
  - intros [q| | |]; try reflexivity. simpl.
    cmp; try reflexivity; exfalso; qc_lra.
Qed.

(** *** Annualizing *)

Lemma eq_true (x y : xnum) : eq x y = true -> x = y.
Proof.
  destruct x as [a| | |], y as [b| | |]; simpl; try discriminate;
    try reflexivity.
  destruct (Qc_compare_cases a b); try discriminate. now intros _; subst.
Qed.

(** What passing the checks says of the duration value. *)
Lemma accepted_period (xpow : xnum -> xnum -> xnum) d rates pv tiers
    (st : State xnum) now :
  alert (calculateInterest_parsed xpow d rates pv tiers st now) = None ->
  is_nan pv = false /\ le pv (lit 0) = false.
Proof.
  intros Halert.
  assert (Hok : ~ rejected d rates pv).
  { intros Hrej.
    apply (calculateInterest_parsed_alert xpow d rates pv tiers st now)
      in Hrej. congruence. }
  split.
  - destruct (is_nan pv) eqn:E; [|reflexivity].
    exfalso. apply Hok. right; right; left. exact E.
  - destruct (le pv (lit 0)) eqn:E; [|reflexivity].
    exfalso. apply Hok. right; right; right. exact E.
Qed.

(** The annualization factor is the inverse of the year fraction. *)
Lemma annualizationFactor_inverse (unit : string) (pv : xnum) :
  is_nan pv = false -> le pv (lit 0) = false ->
  annualizationFactor unit pv = div (lit 1) (timeInYears unit pv).
Proof.
  intros Hnan Hle. unfold annualizationFactor, timeInYears.
  repeat (destruct (String.eqb unit _);
          [now apply annualization|]).
  reflexivity.
Qed.

End ExactFacts.

(** ** Facts about the history and the tier editing *)

Lemma remove_index_shift {A} (l : list A) :
  forall k i,
    omap id (imap (fun j x => if decide (k + j = i)%nat then None else Some x)
               l)
    = if decide (k <= i)%nat then delete (i - k)%nat l else l.
Proof.
  induction l as [|x l IH]; intros k i.
  - simpl. now case_decide.
  - rewrite imap_cons.
    rewrite (imap_ext _
               (fun j x => if decide (S k + j = i)%nat then None else Some x))
      by (intros j y _; simpl; repeat case_decide; (reflexivity || lia)).
    pose proof (IH (S k) i) as IH'. simpl in *. unfold omap in IH'.
    rewrite IH'.
    repeat case_decide; try lia; simpl; try reflexivity.
    all: first
      [ replace (i - k)%nat with 0%nat by lia; reflexivity
      | replace (i - k)%nat with (S (i - S k)) by lia; reflexivity ].
Qed.

(** A copy by the spread syntax of an array without holes is the array
    itself. *)
Lemma spread_no_holes (arr : list jsval) : no_holes arr -> spread arr = arr.
Proof.
  unfold no_holes, spread. induction arr as [|x arr IH]; intros Hno;
    [reflexivity|].
  apply not_elem_of_cons in Hno as [Hx Hno]. simpl. rewrite (IH Hno).
  now destruct x.
Qed.

Lemma no_holes_spread (arr : list jsval) : no_holes (spread arr).
Proof.
  unfold no_holes, spread. intros Hin.
  apply list_elem_of_fmap in Hin as (x & Hx & _). now destruct x.
Qed.

Lemma length_spread (arr : list jsval) : length (spread arr) = length arr.
Proof. apply length_map. Qed.

Lemma all_strings_no_holes (arr : list jsval) :
  all_strings arr = true -> no_holes arr.
Proof.
  unfold all_strings, no_holes. intros Hall Hin.
  rewrite forallb_forall in Hall. apply list_elem_of_In, Hall in Hin.
  discriminate Hin.
Qed.

Lemma all_strings_spread (arr : list jsval) :
  all_strings arr = true -> spread arr = arr.
Proof. intros Hall. now apply spread_no_holes, all_strings_no_holes. Qed.

Lemma last_spread (arr : list jsval) (s : string) :
  last (spread arr) = Some (JString s) <-> last arr = Some (JString s).
Proof.
  unfold spread. change (map read arr) with (read <$> arr).
  rewrite fmap_last. destruct (last arr) as [[| |]|]; simpl;
    split; congruence.
Qed.

(** [filter((_, i) => i !== index)] deletes the element at [index] of an
    array without holes. *)
Lemma remove_index_delete (index : nat) (l : list jsval) :
  no_holes l -> remove_index index l = delete index l.
Proof.
  intros Hno. unfold remove_index.
  rewrite (imap_ext _
             (fun j x => if decide (0 + j = index)%nat then None else Some x)).
  - rewrite remove_index_shift. simpl. now rewrite Nat.sub_0_r.
  - intros j x Hx. simpl. case_decide; [reflexivity|].
    case_decide as Hhole; [|reflexivity]. exfalso. apply Hno.
    rewrite <- Hhole. eapply list_elem_of_lookup_2, Hx.
Qed.

(** What [filter] leaves has no hole. *)
Lemma no_holes_remove_index (index : nat) (l : list jsval) :
  no_holes (remove_index index l).
Proof.
  unfold no_holes, remove_index. intros Hin.
  apply list_elem_of_omap in Hin as (o & Ho & Hid).
  apply list_elem_of_lookup in Ho as (j & Hj).
  rewrite list_lookup_imap in Hj.
  destruct (l !! j) as [x|]; [|discriminate]. simpl in Hj.
  injection Hj as <-. repeat case_decide; try discriminate.
  simpl in Hid. congruence.
Qed.

Lemma no_holes_insert_string (arr : list jsval) (i : nat) (s : string) :
  no_holes arr -> no_holes (<[i := JString s]> arr).
Proof.
  unfold no_holes. intros Hno Hin.
  apply list_elem_of_lookup in Hin as (j & Hj).
  destruct (decide (i = j)) as [->|Hne].
  - destruct (decide (j < length arr)%nat).
    + rewrite list_lookup_insert_eq in Hj by assumption. discriminate.
    + rewrite list_insert_ge in Hj by lia.
      apply Hno. eapply list_elem_of_lookup_2, Hj.
  - rewrite list_lookup_insert_ne in Hj by assumption.
    apply Hno. eapply list_elem_of_lookup_2, Hj.
Qed.

Lemma array_set_ok (thresholds : list jsval) (i : nat) (v : jsval) :
  thresholds_ok thresholds ->
  (i < length thresholds)%nat -> i <> (length thresholds - 1)%nat ->
  thresholds_ok (array_set thresholds i v).
Proof.
  intros [Hlast Hlen] Hi Hne. unfold array_set.
  destruct (decide (i < length thresholds)%nat); [|lia].
  split; [|now rewrite length_insert].
  rewrite last_lookup, length_insert, list_lookup_insert_ne by lia.
  now rewrite <- last_lookup.
Qed.

Lemma thresholds_ok_spread (thresholds : list jsval) :
  thresholds_ok thresholds -> thresholds_ok (spread thresholds).
Proof.
  intros [Hlast Hlen]. split; [now apply last_spread|].
  now rewrite length_spread.
Qed.

Lemma splice_before_last_ok (thresholds : list jsval) (v : jsval) :
  thresholds_ok thresholds ->
  splice_before_last thresholds v =
    take (length thresholds - 1) thresholds ++ [v; JString "Infinity"] /\
  thresholds_ok (splice_before_last thresholds v).
Proof.
  intros [Hlast Hlen]. apply last_Some in Hlast as [l' ->].
  unfold splice_before_last.
  rewrite length_app in *. simpl in *.
  replace (length l' + 1 - 1)%nat with (length l') by lia.
  rewrite take_app_length, drop_app_length. split; [reflexivity|].
  split.
  - rewrite (last_app_cons l' [JString "Infinity"] v). reflexivity.
  - rewrite length_app. simpl. lia.
Qed.

Lemma no_holes_splice_before_last (arr : list jsval) (s : string) :
  no_holes arr -> no_holes (splice_before_last arr (JString s)).
Proof.
  unfold no_holes, splice_before_last. intros Hno Hin.
  apply elem_of_app in Hin as [Hin|Hin].
  - apply elem_of_take in Hin as (i & Hi & _).
    apply Hno. eapply list_elem_of_lookup_2, Hi.
  - apply elem_of_cons in Hin as [Hin|Hin]; [discriminate|].
    apply Hno. eapply subseteq_drop, Hin.
Qed.

Lemma remove_index_ok (thresholds : list jsval) (i : nat) :
  thresholds_ok thresholds -> no_holes thresholds ->
  (2 < length thresholds)%nat ->
  (i < length thresholds)%nat -> i <> (length thresholds - 1)%nat ->
  thresholds_ok (remove_index i thresholds).
Proof.
  intros [Hlast Hlen] Hno Hlen' Hi Hne.
  rewrite remove_index_delete by assumption.
  assert (Hdel : length (delete i thresholds) = (length thresholds - 1)%nat)
    by (apply length_delete, lookup_lt_is_Some; lia).
  split; [|lia].
  rewrite last_lookup, Hdel, list_lookup_delete_ge by lia.
  rewrite last_lookup in Hlast.
  replace (S (pred (length thresholds - 1))) with (pred (length thresholds))
    by lia.
  exact Hlast.
Qed.

(** The rows of the page bound the index that [updateTierThreshold]
    receives. An index beyond them is not one the page can raise: there the
    array write would grow the list, leave a hole and move the sentinel from
    the end, and [calculateInterest] would throw for want of tiers. *)
Remark updateTierThreshold_beyond_rows :
  let st :=
    next (updateTierThreshold 5 "7" (initial_state : State Exact.xnum)) in
  tierThresholds st
  = [JString "100000"; JString "500000"; JString "500000000";
     JString "Infinity"; JHole; JString "7"] /\
  alert (calculateInterest parseFloat_plain Exact.pow_whole
           formatAmount_text (next (updateAmount "1" st)) "")
  = Some (Throws "TypeError").
Proof. split; reflexivity. Qed.

Section Runs.
Context {num : Type} `{JSNumber num}.
Variable parseFloat : jsval -> num.
Variable Math_pow : num -> num -> num.
Variable Number_toString : num -> string.
Variable formatAmount : jsval -> string.

Abbreviation step :=
  (handle parseFloat Math_pow Number_toString formatAmount).
Abbreviation runs :=
  (run parseFloat Math_pow Number_toString formatAmount).

(** [getCurrentTiers] has tiers exactly when every threshold slot holds a
    string. *)
Lemma getCurrentTiers_Some (st : State num) :
  all_strings (tierThresholds st) = true <->
  exists tiers, getCurrentTiers parseFloat formatAmount st = Some tiers.
Proof.
  unfold getCurrentTiers, getTierNames.
  destruct (all_strings (tierThresholds st)); simpl.
  - split; [eauto|reflexivity].
  - split; [discriminate|]. now intros [tiers Htiers].
Qed.

(** What a successful [calculateInterest] leaves in the state. *)
Lemma calculateInterest_saves (st : State num) (now : string) :
  alert (calculateInterest parseFloat Math_pow formatAmount st now) = None ->
  exists r,
    next (calculateInterest parseFloat Math_pow formatAmount st now) =
      {| amountText := amountText st;
         interestRates := interestRates st;
         tierThresholds := tierThresholds st;
         timePeriod := timePeriod st;
         isCompound := isCompound st;
         compoundFrequency := compoundFrequency st;
         result := Some r;
         savedCalculations := r :: take 9 (savedCalculations st) |} /\
    depositAmount r = parseIndianFormat parseFloat (amountText st) /\
    r_rates r = spread (interestRates st) /\
    r_thresholds r = spread (tierThresholds st) /\
    r_timePeriod r = timePeriod st /\
    r_isCompound r = isCompound st /\
    r_compoundFrequency r =
      (if isCompound st then Some (compoundFrequency st) else None) /\
    all_strings (tierThresholds st) = true.
Proof.
  unfold calculateInterest. intros Halert.
  destruct (getCurrentTiers parseFloat formatAmount st) as [tiers|] eqn:Ht.
  - destruct (calculateInterest_run_accepted Math_pow _ _ _ _ _ _ Halert)
      as (r & Hnext & Hd & _ & _ & _ & _ & Hrates & Hths & Htp & Hmode
          & Hfreq).
    exists r. rewrite Hnext. repeat split; try assumption.
    apply getCurrentTiers_Some. eauto.
  - now destruct (calculateInterest_run_throws Math_pow
                    (parseIndianFormat parseFloat (amountText st))
                    (array_map parseFloat (interestRates st))
                    (parseFloat (JString (tp_value (timePeriod st))))
                    st now) as [Hthrows _].
Qed.

(** A [calculateInterest] that raises an alert or throws leaves the state
    as it was. *)
Lemma calculateInterest_keeps (st : State num) (now : string) :
  alert (calculateInterest parseFloat Math_pow formatAmount st now) <> None ->
  next (calculateInterest parseFloat Math_pow formatAmount st now) = st.
Proof.
  unfold calculateInterest.
  destruct (getCurrentTiers parseFloat formatAmount st) as [tiers|].
  - apply (calculateInterest_parsed_rejected_run Math_pow).
  - intros _. apply calculateInterest_run_throws.
Qed.

(** No handler lets the history grow beyond ten entries. *)
Lemma handle_history_bound (ev : Event) (st : State num) :
  (length (savedCalculations st) <= 10)%nat ->
  (length (savedCalculations (next (step ev st))) <= 10)%nat.
Proof.
  intros Hlen.
  destruct ev; cbn [handle]; try assumption.
  - unfold updateTierThreshold. repeat case_decide; exact Hlen.
  - unfold addTier. case_decide; exact Hlen.
  - unfold removeTier. repeat case_decide; exact Hlen.
  - unfold calculateInterest, calculateInterest_run.
    repeat (match goal with
            | |- context [if ?b then _ else _] => destruct b
            end; try exact Hlen).
    all: destruct (getCurrentTiers _ _ _); [|exact Hlen].
    all: cbn [next savedCalculations]; rewrite length_take; lia.
  - cbn. lia.
Qed.

Lemma run_history_bound (allowed : Event -> Prop) (st st' : State num) :
  (length (savedCalculations st) <= 10)%nat ->
  runs allowed st st' ->
  (length (savedCalculations st') <= 10)%nat.
Proof.
  intros Hlen Hrun. induction Hrun as [|st' ev _ IH _ _]; [assumption|].
  now apply handle_history_bound.
Qed.

(** A tier-editing operation on a row of the page keeps the sentinel
    last and the list at two elements or more, and leaves no hole. *)
Lemma handle_thresholds_ok (ev : Event) (st : State num) :
  tier_edit ev -> enabled st ev ->
  thresholds_ok (tierThresholds st) /\ no_holes (tierThresholds st) ->
  thresholds_ok (tierThresholds (next (step ev st))) /\
  no_holes (tierThresholds (next (step ev st))).
Proof.
  intros Hedit Hen [Hok Hno]. pose proof Hok as [_ Hlen].
  destruct ev; try (now destruct Hedit);
    cbn [handle enabled] in *.
  - unfold updateTierThreshold. case_decide; [now split|].
    cbn [next tierThresholds set_tiers]. split.
    + apply array_set_ok;
        [now apply thresholds_ok_spread|rewrite length_spread..];
        (assumption || lia).
    + unfold array_set. rewrite length_spread.
      case_decide; [|lia].
      apply no_holes_insert_string, no_holes_spread.
  - unfold addTier. case_decide; [now split|].
    cbn [next tierThresholds set_tiers]. split.
    + now apply splice_before_last_ok, thresholds_ok_spread.
    + apply no_holes_splice_before_last, no_holes_spread.
  - unfold removeTier. repeat case_decide; try (now split).
    cbn [next tierThresholds set_tiers]. split.
    + apply remove_index_ok; (assumption || lia).
    + apply no_holes_remove_index.
  - split; [split; [reflexivity|simpl; lia]|].
    apply all_strings_no_holes. reflexivity.
Qed.

Lemma run_thresholds_ok (st st' : State num) :
  thresholds_ok (tierThresholds st) /\ no_holes (tierThresholds st) ->
  runs tier_edit st st' ->
  thresholds_ok (tierThresholds st') /\ no_holes (tierThresholds st').
Proof.
  intros Hok Hrun. induction Hrun as [|st' ev _ IH Hedit Hen];
    [assumption|].
  now apply handle_thresholds_ok.
Qed.

End Runs.

(** The whole of [calculateInterest], parsing included, on the text a user
    may type for the scenario of the specification: "6 Lakh" is read as
    600000, the thresholds and rates are read from their texts, and the
    labels are those of [getTierNames]. In binary64. *)
Example scenario_from_text :
  let o :=
    calculateInterest (num := PrimFloat.float) parseFloat_plain
      Binary64.pow_unused formatAmount_text
      (next (updateAmount "6 Lakh" scenario_state)) "" in
  alert o = None /\
  exists r,
    result (next o) = Some r /\
    depositAmount r = num_lit 600000 /\
    map tier (tierBreakdown r) =
      ["Upto ₹100000"; "Above ₹100000 upto ₹500000"; "Above ₹500000"] /\
    allocatedAmounts r = [num_lit 100000; num_lit 400000; num_lit 100000] /\
    totalInterest r = num_lit 36500.
Proof.
  split; [vm_compute; reflexivity|].
  eexists. split; [vm_compute; reflexivity|].
  vm_compute. repeat split; reflexivity.
Qed.

(** ** The claims of the specification *)

Import Exact ExactFacts.

(** Equalities between evaluated lists of exact numbers. *)
Ltac exact_values :=
  repeat match goal with
         | |- _ /\ _ => split
         | |- @Logic.eq (list xnum) (_ :: _) (_ :: _) => f_equal
         | |- @Logic.eq xnum (Fin _) (Fin _) => apply Fin_eq; reflexivity
         | |- _ => reflexivity
         end.

(** A label is not among the labels of an evaluated breakdown. *)
Ltac absent_label :=
  let Hin := fresh "Hin" in
  intros Hin; vm_compute in Hin;
  repeat (apply elem_of_cons in Hin as [Hin|Hin]; [discriminate Hin|]);
  now apply elem_of_nil in Hin.

(** The outcome at hand is of the kind [only_first_tier]. *)
Ltac first_tier_only :=
  split; [vm_compute; reflexivity|];
  eexists; split; [vm_compute; reflexivity|];
  split; [vm_compute; reflexivity|];
  split; [absent_label|];
  vm_compute; exact_values.

(** C1. The scenario of the specification: principal 600000, boundaries
    100000, 500000 and Infinity, rates 4.00, 6.25 and 7.50, one year, Simple
    mode. The three tiers receive 100000, 400000 and 100000 and earn 4000,
    25000 and 7500; the total interest is 36500, the total amount 636500 and
    the effective annual rate is within 0.0001 of 6.0833. This holds bit for
    bit in binary64, and in exact arithmetic. *)
Theorem C1_scenario
    (pow : PrimFloat.float -> PrimFloat.float -> PrimFloat.float)
    (xpow : xnum -> xnum -> xnum) (now : string) :
  scenario_expected
    (calculateInterest_parsed pow (num_lit 600000) scenario_rates
       (num_lit 1) scenario_tiers scenario_state now) /\
  scenario_expected
    (calculateInterest_parsed xpow (num_lit 600000) scenario_rates
       (num_lit 1) scenario_tiers scenario_state now).
Proof.
  split; (split; [vm_compute; reflexivity|]).
  - eexists. split; [vm_compute; reflexivity|].
    vm_compute. repeat split; reflexivity.
  - eexists. split; [vm_compute; reflexivity|].
    vm_compute. exact_values.
Qed.




(** The amended C2 on the binary64 run of its counterexample: three
    amounts, the first two the capacities of their tiers, and a remainder of
    exactly zero. *)
Example allocation_exhausts_binary64 :
  exists r rest,
    result (next (calculateInterest_parsed Binary64.pow_unused
                    (num_lit 10000000000) scenario_rates (num_lit 1)
                    decimal_tiers scenario_state "")) = Some r /\
    allocatedAmounts r =
      take 2 (capacities decimal_tiers (num_lit 0)) ++ [rest] /\
    (rest <=? num_lit 0)%js = false /\
    fold_left num_sub (allocatedAmounts r) (num_lit 10000000000)
      = num_lit 0.
Proof.
  eexists _, _. split; [vm_compute; reflexivity|].
  vm_compute. repeat split; reflexivity.
Qed.




(** C4, as stated, fails: with boundaries that decrease (500000, 100000,
    Infinity), and with the sentinel before the last position (100000,
    Infinity, 500000), [calculateInterest] raises no alert and produces a
    result. *)
Lemma C4_counterexample :
  only_first_tier
    (calculateInterest_parsed Binary64.pow_unused (num_lit 600000)
       scenario_rates (num_lit 1) decreasing_tiers scenario_state "")
    (num_lit 500000) /\
  (let o :=
     calculateInterest_parsed Binary64.pow_unused (num_lit 600000)
       scenario_rates (num_lit 1) early_sentinel_tiers scenario_state "" in
   alert o = None /\
   exists r, result (next o) = Some r /\
     allocatedAmounts r = [num_lit 100000; num_lit 500000]).
Proof.
  split; [first_tier_only|].
  split; [vm_compute; reflexivity|].
  eexists. split; vm_compute; reflexivity.
Qed.

(** C4, amended. [calculateInterest] makes no check of the tier boundaries:
    whether it raises an alert does not depend on the tiers, and whenever
    the principal, the rates and the duration pass its checks it produces a
    result, whatever the order of the boundaries and the place of the
    sentinel. In every model of numbers. *)
Theorem C4_boundaries_unchecked {num : Type} `{JSNumber num}
    (pow : num -> num -> num) (d : num) (rates : list num) (pv : num)
    (tiers tiers' : list (Tier num)) (st : State num) (now : string) :
  alert (calculateInterest_parsed pow d rates pv tiers st now) =
  alert (calculateInterest_parsed pow d rates pv tiers' st now) /\
  (~ rejected d rates pv ->
   alert (calculateInterest_parsed pow d rates pv tiers st now) = None /\
   exists r,
     result (next (calculateInterest_parsed pow d rates pv tiers st now))
     = Some r /\ depositAmount r = d).
Proof.
  split.
  - unfold calculateInterest_parsed, calculateInterest_run.
    destruct (isNaN d || num_le d (num_lit 0)); [reflexivity|].
    destruct (array_some _ _); [reflexivity|].
    destruct (isNaN pv || num_le pv (num_lit 0)); reflexivity.
  - intros Hvalid.
    assert (Halert :
      alert (calculateInterest_parsed pow d rates pv tiers st now) = None).
    { destruct (alert (calculateInterest_parsed pow d rates pv tiers st now))
        eqn:E; [|reflexivity].
      exfalso. apply Hvalid.
      apply (calculateInterest_parsed_alert pow d rates pv tiers st now).
      congruence. }
    split; [exact Halert|].
    destruct (calculateInterest_parsed_accepted pow _ _ _ _ _ _ Halert)
      as (r & Hnext & Hd & _).
    exists r. now rewrite Hnext.
Qed.

Lemma C4_boundaries_unchecked_witness :
  alert (calculateInterest_parsed Binary64.pow_unused (num_lit 600000)
           scenario_rates (num_lit 1) decreasing_tiers scenario_state "") =
  alert (calculateInterest_parsed Binary64.pow_unused (num_lit 600000)
           scenario_rates (num_lit 1) early_sentinel_tiers scenario_state "")
  /\ alert (calculateInterest_parsed Binary64.pow_unused (num_lit 600000)
              scenario_rates (num_lit 1) decreasing_tiers scenario_state "")
     = None
  /\ exists r,
       result (next (calculateInterest_parsed Binary64.pow_unused
                       (num_lit 600000) scenario_rates (num_lit 1)
                       decreasing_tiers scenario_state "")) = Some r /\
       depositAmount r = num_lit 600000.
Proof.
  destruct (C4_boundaries_unchecked Binary64.pow_unused (num_lit 600000)
              scenario_rates (num_lit 1) decreasing_tiers
              early_sentinel_tiers scenario_state "") as [Hsame Hresult].
  split; [exact Hsame|]. apply Hresult. intros Hrejected.
  apply (calculateInterest_parsed_alert Binary64.pow_unused _ _ _
           decreasing_tiers scenario_state "") in Hrejected.
  apply Hrejected. vm_compute. reflexivity.
Defined.

(** C5, as stated, fails: a rate of [Infinity], or a duration of
    [Infinity], is not finite, yet [calculateInterest] raises no alert and
    produces a result, whose total interest is [Infinity]. *)
Lemma C5_counterexample :
  isFinite (Infinity : PrimFloat.float) = false /\
  infinite_result
    (calculateInterest_parsed Binary64.pow_unused (num_lit 600000)
       [Infinity; num_lit 1; num_lit 1] (num_lit 1) scenario_tiers
       scenario_state "") /\
  infinite_result
    (calculateInterest_parsed Binary64.pow_unused (num_lit 600000)
       scenario_rates Infinity scenario_tiers scenario_state "").
Proof.
  split; [vm_compute; reflexivity|].
  split; (split; [vm_compute; reflexivity|]).
  - eexists. split; [vm_compute; reflexivity|].
    vm_compute. repeat split; reflexivity.
  - eexists. split; [vm_compute; reflexivity|].
    vm_compute. repeat split; reflexivity.
Qed.

(** C5, amended. [calculateInterest] raises an alert exactly when the
    parsed principal is [NaN] or not positive, or some rate is [NaN] or
    negative, or the duration value is [NaN] or not positive (an infinite
    principal, rate or duration passes). When it raises an alert no result
    is produced: the state, with its previous result and saved history, is
    unchanged. In every model of numbers. *)
Theorem C5_validation {num : Type} `{JSNumber num}
    (pow : num -> num -> num) (d : num) (rates : list num) (pv : num)
    (tiers : list (Tier num)) (st : State num) (now : string) :
  (alert (calculateInterest_parsed pow d rates pv tiers st now) <> None
   <-> rejected d rates pv) /\
  (alert (calculateInterest_parsed pow d rates pv tiers st now) <> None ->
   next (calculateInterest_parsed pow d rates pv tiers st now) = st).
Proof.
  split.
  - apply calculateInterest_parsed_alert.
  - apply calculateInterest_parsed_rejected.
Qed.

Lemma C5_validation_witness :
  rejected (NaN : PrimFloat.float) scenario_rates (num_lit 1) /\
  next (calculateInterest_parsed Binary64.pow_unused NaN scenario_rates
          (num_lit 1) scenario_tiers scenario_state "") = scenario_state.
Proof.
  destruct (C5_validation Binary64.pow_unused NaN scenario_rates (num_lit 1)
              scenario_tiers scenario_state "") as [Hiff Hsame].
  assert (Halert :
    alert (calculateInterest_parsed Binary64.pow_unused NaN scenario_rates
             (num_lit 1) scenario_tiers scenario_state "") <> None)
    by (vm_compute; discriminate).
  split; [apply Hiff, Halert|apply Hsame, Halert].
Defined.







(** The doubling of C7 on the scenario in binary64, where nothing
    overflows: two years earn 73000, twice the 36500 of one year. *)
Example doubling_binary64 :
  exists r r',
    result (next (calculateInterest_parsed Binary64.pow_unused
                    (num_lit 600000) scenario_rates (num_lit 1)
                    scenario_tiers scenario_state "")) = Some r /\
    result (next (calculateInterest_parsed Binary64.pow_unused
                    (num_lit 600000) scenario_rates
                    (num_lit 2 * num_lit 1)%js scenario_tiers
                    (next (updateTimePeriodValue "2" scenario_state)) ""))
      = Some r' /\
    totalInterest r' = num_lit 73000 /\
    totalInterest r' = (num_lit 2 * totalInterest r)%js.
Proof.
  eexists _, _. split; [vm_compute; reflexivity|].
  split; [vm_compute; reflexivity|].
  vm_compute. split; reflexivity.
Qed.

(** C8. For a duration of one year the effective annual rate is
    [(totalInterest/principal)*100]; otherwise it is that ratio times
    [1/t], where [t] is the year fraction of the interest formulas: times
    [365/value] for days, [12/value] for months, [4/value] for quarters and
    [1/value] for years. In exact arithmetic. *)
Theorem C8_effective_annual_rate (xpow : xnum -> xnum -> xnum) (d : xnum)
    (rates : list xnum) (pv : xnum) (tiers : list (Tier xnum))
    (st : State xnum) (now : string) (r : Result xnum) :
  alert (calculateInterest_parsed xpow d rates pv tiers st now) = None ->
  result (next (calculateInterest_parsed xpow d rates pv tiers st now))
    = Some r ->
  let rawRate := (totalInterest r / depositAmount r * num_lit 100)%js in
  let unit := tp_unit (timePeriod st) in
  (unit = "year" -> pv = num_lit 1 -> effectiveRate r = rawRate) /\
  (~ (unit = "year" /\ pv = num_lit 1) ->
   effectiveRate r = (rawRate * (num_lit 1 / timeInYears unit pv))%js) /\
  (unit = "day" ->
   effectiveRate r = (rawRate * (num_lit 365 / pv))%js) /\
  (unit = "month" ->
   effectiveRate r = (rawRate * (num_lit 12 / pv))%js) /\
  (unit = "quarter" ->
   effectiveRate r = (rawRate * (num_lit 4 / pv))%js) /\
  (unit = "year" -> pv <> num_lit 1 ->
   effectiveRate r = (rawRate * (num_lit 1 / pv))%js).
Proof.
  intros Halert Hres rawRate unit.
  destruct (accepted_period xpow _ _ _ _ _ _ Halert) as [Hnan Hle].
  pose proof (effectiveRate_cases xpow _ _ _ _ _ _ _ Halert Hres) as Heff.
  fold rawRate unit in Heff.
  assert (Hother : ~ (unit = "year" /\ pv = num_lit 1) ->
            effectiveRate r
            = (rawRate * annualizationFactor unit pv)%js).
  { intros Hnot. rewrite Heff.
    destruct (String.eqb unit "year") eqn:Eu; [|reflexivity].
    destruct (pv === num_lit 1)%js eqn:Ep; [|reflexivity].
    exfalso. apply Hnot. split; [now apply String.eqb_eq|].
    now apply eq_true. }
  split; [|split; [|repeat split]].
  - intros Hu Hp. rewrite Heff, Hu, Hp. reflexivity.
  - intros Hnot. rewrite (Hother Hnot).
    now rewrite annualizationFactor_inverse.
  - intros Hu. rewrite Hother by (rewrite Hu; intros [? _]; discriminate).
    now rewrite Hu.
  - intros Hu. rewrite Hother by (rewrite Hu; intros [? _]; discriminate).
    now rewrite Hu.
  - intros Hu. rewrite Hother by (rewrite Hu; intros [? _]; discriminate).
    now rewrite Hu.
  - intros Hu Hp. rewrite Hother by tauto. now rewrite Hu.
Qed.

Lemma C8_effective_annual_rate_witness :
  exists r,
    result (next (calculateInterest_parsed pow_whole (num_lit 600000)
                    scenario_rates (num_lit 6) scenario_tiers
                    (next (updateTimePeriodUnit "month" scenario_state))
                    "")) = Some r /\
    effectiveRate r =
      (totalInterest r / depositAmount r * num_lit 100
       * (num_lit 1 / timeInYears "month" (num_lit 6)))%js /\
    effectiveRate r =
      (totalInterest r / depositAmount r * num_lit 100
       * (num_lit 12 / num_lit 6))%js.
Proof.
  assert (Hres : exists r,
    result (next (calculateInterest_parsed pow_whole (num_lit 600000)
                    scenario_rates (num_lit 6) scenario_tiers
                    (next (updateTimePeriodUnit "month" scenario_state))
                    "")) = Some r).
  { eexists. vm_compute. reflexivity. }
  destruct Hres as (r & Hres).
  assert (Halert :
    alert (calculateInterest_parsed pow_whole (num_lit 600000)
             scenario_rates (num_lit 6) scenario_tiers
             (next (updateTimePeriodUnit "month" scenario_state)) "")
    = None) by (vm_compute; reflexivity).
  destruct (C8_effective_annual_rate pow_whole _ _ _ _ _ _ r Halert Hres)
    as (_ & Hinv & _ & Hmonth & _).
  exists r. split; [exact Hres|]. split.
  - apply Hinv. intros [Hu _]. discriminate Hu.
  - apply Hmonth. reflexivity.
Defined.

(** C9. After every successful calculation the saved history is the new
    result followed by the previous history cut to nine entries: the new
    result comes first, at most ten entries are kept and the oldest are
    dropped. The bound of ten then holds after every further run of the
    page, whatever its events. In every model of numbers. *)
Theorem C9_history_bounded {num : Type} `{JSNumber num}
    (parseFloat : jsval -> num) (pow : num -> num -> num)
    (toString : num -> string) (formatAmount : jsval -> string)
    (st : State num) (now : string) :
  alert (calculateInterest parseFloat pow formatAmount st now) = None ->
  let st' := next (calculateInterest parseFloat pow formatAmount st now) in
  (exists r,
     result st' = Some r /\
     savedCalculations st' = take 10 (r :: savedCalculations st) /\
     head (savedCalculations st') = Some r /\
     tail (savedCalculations st') = take 9 (savedCalculations st)) /\
  (length (savedCalculations st') <= 10)%nat /\
  (forall st'',
     run parseFloat pow toString formatAmount any_event st' st'' ->
     (length (savedCalculations st'') <= 10)%nat).
Proof.
  intros Halert st'.
  destruct (calculateInterest_saves parseFloat pow formatAmount st now
              Halert) as (r & Hnext & _).
  assert (Hlen : (length (savedCalculations st') <= 10)%nat).
  { unfold st'. rewrite Hnext.
    cbn [savedCalculations length]. rewrite length_take. lia. }
  split; [|split; [exact Hlen|]].
  - unfold st'. rewrite Hnext. exists r. repeat split.
  - intros st'' Hrun. eapply run_history_bound; eassumption.
Qed.

Lemma C9_history_bounded_witness :
  (length (savedCalculations
             (next (calculateInterest (num := xnum) parseFloat_plain
                      pow_whole formatAmount_text scenario_state "")))
   <= 10)%nat.
Proof.
  refine (proj1 (proj2 (C9_history_bounded (num := xnum) parseFloat_plain
                          pow_whole toString_whole formatAmount_text
                          scenario_state "" _))).
  vm_compute. reflexivity.
Defined.

(** C10. Along every sequence of tier-editing operations
    ([updateTierThreshold], [addTier], [removeTier], [resetToDefaults])
    raised from the rows of the page, starting from the default thresholds,
    the threshold list keeps the ['Infinity'] sentinel as its last element
    and has at least two elements. In such a state [updateTierThreshold]
    leaves the state as it is at the last index, [removeTier] leaves it as
    it is at the last index and when only two thresholds are left, and
    [addTier] puts the new threshold just before the last element. In every
    model of numbers. *)
Theorem C10_sentinel_stays_last {num : Type} `{JSNumber num}
    (parseFloat : jsval -> num) (pow : num -> num -> num)
    (toString : num -> string) (formatAmount : jsval -> string)
    (st0 st : State num) :
  tierThresholds st0 = defaultThresholds ->
  run parseFloat pow toString formatAmount tier_edit st0 st ->
  let thresholds := tierThresholds st in
  thresholds_ok thresholds /\
  (forall value,
     next (updateTierThreshold (length thresholds - 1) value st) = st) /\
  (forall index,
     (length thresholds <= 2)%nat \/ index = (length thresholds - 1)%nat ->
     next (removeTier index st) = st) /\
  ((length thresholds < 10)%nat ->
   exists threshold,
     tierThresholds (next (addTier parseFloat toString st)) =
     take (length thresholds - 1) thresholds
     ++ [JString threshold; JString "Infinity"]).
Proof.
  intros Hdefault Hrun thresholds.
  assert (Hinv : thresholds_ok thresholds /\ no_holes thresholds).
  { eapply run_thresholds_ok; [|exact Hrun].
    rewrite Hdefault. split; [split; [reflexivity|simpl; lia]|].
    apply all_strings_no_holes. reflexivity. }
  destruct Hinv as [Hok Hno].
  pose proof Hok as [_ Hlen]. fold thresholds in Hlen.
  split; [exact Hok|]. split; [|split].
  - intros value. unfold updateTierThreshold. fold thresholds.
    case_decide; [reflexivity|lia].
  - intros index Hindex. unfold removeTier. fold thresholds.
    repeat case_decide; try reflexivity. lia.
  - intros Hroom. unfold addTier. fold thresholds.
    case_decide; [lia|]. eexists. cbn [next tierThresholds set_tiers].
    rewrite (spread_no_holes _ Hno). now apply splice_before_last_ok.
Qed.

Lemma C10_sentinel_stays_last_witness :
  thresholds_ok
    (tierThresholds
       (next (updateTierThreshold 0 "250000"
                (next (removeTier 0
                         (next (addTier (num := xnum) parseFloat_plain
                                  toString_whole initial_state))))))).
Proof.
  refine (proj1 (C10_sentinel_stays_last (num := xnum) parseFloat_plain
                   pow_whole toString_whole formatAmount_text
                   initial_state _ eq_refl _)).
  apply (run_step _ _ _ _ _ _ _ (EvUpdateTierThreshold 0 "250000"));
    [|exact I|vm_compute; lia].
  apply (run_step _ _ _ _ _ _ _ (EvRemoveTier 0));
    [|exact I|vm_compute; lia].
  apply (run_step _ _ _ _ _ _ _ EvAddTier); [|exact I|exact I].
  apply run_nil.
Defined.

(** ** Further properties of [calculateInterest] *)

Section Breakdown.
Context {num : Type} `{JSNumber num}.
Variable Math_pow : num -> num -> num.
Local Open Scope js_scope.

Lemma entries_of_length f rates tiers :
  forall i amounts,
    (length amounts <= length tiers)%nat ->
    length (entries_of f rates tiers i amounts) = length amounts.
Proof.
  intros i amounts Hlen.
  rewrite <- (length_map amount). now rewrite entries_of_amounts.
Qed.

Lemma entries_of_rate f rates tiers :
  forall i amounts j e,
    entries_of f rates tiers i amounts !! j = Some e ->
    rate e = rates !! (i + j)%nat.
Proof.
  induction tiers as [|t tiers IH]; intros i [|a amounts] j e He;
    simpl in *; try discriminate.
  destruct j as [|j]; simpl in *.
  - injection He as <-. simpl. now rewrite Nat.add_0_r.
  - rewrite (IH _ _ _ _ He). f_equal. lia.
Qed.

Lemma fold_interest_sum (l : list (TierEntry num)) :
  forall acc,
    fold_left (fun total e => total + interest e) l acc =
    fold_left num_add (map interest l) acc.
Proof. induction l as [|e l IH]; intros acc; simpl; [reflexivity|apply IH]. Qed.

(** The breakdown follows the tiers. In every model of numbers, a result
    of [calculateInterest] lists the first tiers of [currentTiers], in their
    order and without a gap, and gives the entry at index [i] the rate
    [rates[i]]. *)
Theorem breakdown_follows_tiers d rates pv tiers st now r :
  alert (calculateInterest_parsed Math_pow d rates pv tiers st now) = None ->
  result (next (calculateInterest_parsed Math_pow d rates pv tiers st now))
    = Some r ->
  (length (tierBreakdown r) <= length tiers)%nat /\
  map tier (tierBreakdown r) =
    map name (take (length (tierBreakdown r)) tiers) /\
  (forall i e, tierBreakdown r !! i = Some e -> rate e = rates !! i).
Proof.
  intros Halert Hres.
  destruct (calculateInterest_parsed_accepted _ _ _ _ _ _ _ Halert)
    as (r0 & Hnext & _ & Hbd & _).
  rewrite Hnext in Hres. injection Hres as <-.
  pose proof (allocate_length tiers (num_lit 0) d) as Hlen.
  assert (Hsize : length (tierBreakdown r0)
                  = length (allocate tiers (num_lit 0) d))
    by (rewrite Hbd; now apply entries_of_length).
  split; [lia|]. split.
  - rewrite Hsize, Hbd. apply entries_of_tiers.
  - intros i e He. rewrite Hbd in He.
    now rewrite (entries_of_rate _ _ _ _ _ _ _ He).
Qed.

(** No entry for nothing. In every model of numbers, the amount of every
    breakdown entry fails the test [amount <= 0]: a tier that would receive
    zero or less is never listed. *)
Theorem breakdown_amounts_positive d rates pv tiers st now r e :
  alert (calculateInterest_parsed Math_pow d rates pv tiers st now) = None ->
  result (next (calculateInterest_parsed Math_pow d rates pv tiers st now))
    = Some r ->
  e ∈ tierBreakdown r ->
  (amount e <=? num_lit 0) = false.
Proof.
  intros Halert Hres He.
  destruct (calculateInterest_parsed_accepted _ _ _ _ _ _ _ Halert)
    as (r0 & Hnext & _ & Hbd & _).
  rewrite Hnext in Hres. injection Hres as <-.
  apply (allocate_positive tiers (num_lit 0) d).
  assert (Hin : amount e ∈ map amount (tierBreakdown r0))
    by (apply list_elem_of_fmap; eauto).
  rewrite Hbd, entries_of_amounts in Hin by apply allocate_length.
  exact Hin.
Qed.

(** The totals add up. In every model of numbers, the total interest of a
    result is the sum of the interests of its breakdown, added from [0] in
    tier order, and the total amount is the principal plus that total. *)
Theorem totals_add_up d rates pv tiers st now r :
  alert (calculateInterest_parsed Math_pow d rates pv tiers st now) = None ->
  result (next (calculateInterest_parsed Math_pow d rates pv tiers st now))
    = Some r ->
  totalInterest r = num_sum (map interest (tierBreakdown r)) /\
  totalAmount r = depositAmount r + totalInterest r /\
  depositAmount r = d.
Proof.
  intros Halert Hres.
  destruct (calculateInterest_parsed_accepted _ _ _ _ _ _ _ Halert)
    as (r0 & Hnext & Hd & _ & Htot & _ & Hamount & _).
  rewrite Hnext in Hres. injection Hres as <-.
  split; [|split; [now rewrite Hd|exact Hd]].
  rewrite Htot. apply fold_interest_sum.
Qed.

(** The allocation depends on the principal and the tiers alone. In every
    model of numbers, two accepted calculations on the same principal and
    tiers list the same tiers with the same amounts, whatever their rates,
    durations, modes, frequencies and [Math.pow]. *)
Theorem allocation_ignores_rates (pow' : num -> num -> num) d tiers
    rates pv st now r rates' pv' st' now' r' :
  alert (calculateInterest_parsed Math_pow d rates pv tiers st now) = None ->
  result (next (calculateInterest_parsed Math_pow d rates pv tiers st now))
    = Some r ->
  alert (calculateInterest_parsed pow' d rates' pv' tiers st' now') = None ->
  result (next (calculateInterest_parsed pow' d rates' pv' tiers st' now'))
    = Some r' ->
  allocatedAmounts r = allocatedAmounts r' /\
  map tier (tierBreakdown r) = map tier (tierBreakdown r').
Proof.
  intros Halert Hres Halert' Hres'.
  destruct (calculateInterest_parsed_accepted _ _ _ _ _ _ _ Halert)
    as (r0 & Hnext & _ & Hbd & _).
  rewrite Hnext in Hres. injection Hres as <-.
  destruct (calculateInterest_parsed_accepted _ _ _ _ _ _ _ Halert')
    as (r1 & Hnext' & _ & Hbd' & _).
  rewrite Hnext' in Hres'. injection Hres' as <-.
  unfold allocatedAmounts. rewrite Hbd, Hbd'. split.
  - now rewrite !entries_of_amounts by apply allocate_length.
  - now rewrite !entries_of_tiers.
Qed.

End Breakdown.

Lemma breakdown_follows_tiers_witness :
  exists r,
    result (next (calculateInterest_parsed pow_whole (num_lit 600000)
                    scenario_rates (num_lit 1) scenario_tiers
                    scenario_state "")) = Some r /\
    (length (tierBreakdown r) <= length (scenario_tiers (num := xnum)))%nat /\
    map tier (tierBreakdown r) =
      map name (take (length (tierBreakdown r)) scenario_tiers) /\
    (forall i e, tierBreakdown r !! i = Some e ->
       rate e = scenario_rates !! i).
Proof.
  eexists. split; [reflexivity|].
  apply (breakdown_follows_tiers pow_whole (num_lit 600000) scenario_rates
           (num_lit 1) scenario_tiers scenario_state "");
    reflexivity.
Defined.

Lemma breakdown_amounts_positive_witness :
  exists r e,
    result (next (calculateInterest_parsed pow_whole (num_lit 600000)
                    scenario_rates (num_lit 1) scenario_tiers
                    scenario_state "")) = Some r /\
    head (tierBreakdown r) = Some e /\
    (amount e <=? num_lit 0)%js = false.
Proof.
  do 2 eexists. split; [reflexivity|]. split; [reflexivity|].
  eapply (breakdown_amounts_positive pow_whole (num_lit 600000)
            scenario_rates (num_lit 1) scenario_tiers scenario_state "");
    [reflexivity|reflexivity|].
  apply list_elem_of_here.
Defined.

Lemma totals_add_up_witness :
  exists r,
    result (next (calculateInterest_parsed pow_whole (num_lit 600000)
                    scenario_rates (num_lit 2) scenario_tiers
                    compound_state "")) = Some r /\
    totalInterest r = num_sum (map interest (tierBreakdown r)) /\
    totalAmount r = (depositAmount r + totalInterest r)%js /\
    depositAmount r = num_lit 600000.
Proof.
  eexists. split; [reflexivity|].
  apply (totals_add_up pow_whole (num_lit 600000) scenario_rates
           (num_lit 2) scenario_tiers compound_state "");
    reflexivity.
Defined.

Lemma allocation_ignores_rates_witness :
  exists r r',
    result (next (calculateInterest_parsed pow_whole (num_lit 600000)
                    scenario_rates (num_lit 1) scenario_tiers
                    scenario_state "")) = Some r /\
    result (next (calculateInterest_parsed pow_whole (num_lit 600000)
                    [num_lit 1; num_lit 2; num_lit 3] (num_lit 2)
                    scenario_tiers compound_state "")) = Some r' /\
    allocatedAmounts r = allocatedAmounts r' /\
    map tier (tierBreakdown r) = map tier (tierBreakdown r').
Proof.
  do 2 eexists. split; [reflexivity|]. split; [reflexivity|].
  apply (allocation_ignores_rates pow_whole pow_whole (num_lit 600000)
           scenario_tiers scenario_rates (num_lit 1) scenario_state ""
           _ [num_lit 1; num_lit 2; num_lit 3] (num_lit 2) compound_state "");
    reflexivity.
Defined.

(** ** Further properties of the amount parser *)

Lemma append_cons (c : ascii) (s t : string) :
  String c s +:+ t = String c (s +:+ t).
Proof. reflexivity. Qed.

Lemma append_nil_r (s : string) : s +:+ "" = s.
Proof.
  induction s as [|c s IH]; [reflexivity|].
  now rewrite append_cons, IH.
Qed.

Lemma append_assoc (a b c : string) : (a +:+ b) +:+ c = a +:+ (b +:+ c).
Proof.
  induction a as [|x a IH]; [reflexivity|].
  now rewrite !append_cons, IH.
Qed.

Lemma includes_cons_ne (x k : ascii) (s kw : string) :
  x <> k -> includes (String x s) (String k kw) = includes s (String k kw).
Proof.
  intros Hne. cbn [includes String.prefix].
  destruct (ascii_dec k x) as [E|_]; [now destruct Hne|reflexivity].
Qed.

(** A byte that starts neither of the two special characters is
    lower-cased on its own. *)
Lemma toLowerCase_plain (c : ascii) (text : string) :
  Ascii.eqb c "196" = false -> Ascii.eqb c "226" = false ->
  toLowerCase (String c text) = String (lower_char c) (toLowerCase text).
Proof.
  intros H196 H226. cbn [toLowerCase].
  destruct text as [|c1 [|c2 rest2]]; rewrite ?H196, ?H226; reflexivity.
Qed.

(** A first byte that does not lower-case to the first letter of an
    ASCII word changes nothing of whether the lower case has the word. *)
Lemma includes_toLowerCase_cons (c : ascii) (text : string) (k : ascii)
    (kw : string) :
  lower_char c <> k -> k = "l"%char \/ k = "c"%char ->
  includes (toLowerCase (String c text)) (String k kw) =
  includes (toLowerCase text) (String k kw).
Proof.
  intros Hk Hlc.
  assert (Hother : forall x : ascii,
            x ∈ ["i"; "k"; "204"; "135"; "176"; "132"; "170"]%char ->
            x <> k).
  { intros x Hx ->.
    repeat (apply elem_of_cons in Hx as [Hx|Hx];
            [destruct Hlc as [E|E]; rewrite E in Hx; discriminate Hx|]).
    now apply elem_of_nil in Hx. }
  assert (Hin : forall x : ascii,
            In x ["i"; "k"; "204"; "135"; "176"; "132"; "170"]%char ->
            x <> k)
    by (intros x Hx; apply Hother, list_elem_of_In, Hx).
  cbn [toLowerCase].
  destruct text as [|c1 rest1]; [now apply includes_cons_ne|].
  destruct (Ascii.eqb c "196" && Ascii.eqb c1 "176") eqn:E1.
  { apply andb_true_iff in E1 as [Ec Ec1].
    apply Ascii.eqb_eq in Ec, Ec1. subst c c1.
    rewrite (toLowerCase_plain "176" rest1) by reflexivity.
    rewrite !includes_cons_ne by (apply Hin; simpl; tauto).
    reflexivity. }
  destruct rest1 as [|c2 rest2]; [now apply includes_cons_ne|].
  destruct (Ascii.eqb c "226" && Ascii.eqb c1 "132" && Ascii.eqb c2 "170")
    eqn:E2; [|now apply includes_cons_ne].
  apply andb_true_iff in E2 as [E2 Ec2].
  apply andb_true_iff in E2 as [Ec Ec1].
  apply Ascii.eqb_eq in Ec, Ec1, Ec2. subst c c1 c2.
  rewrite (toLowerCase_plain "132" (String "170" rest2)) by reflexivity.
  rewrite (toLowerCase_plain "170" rest2) by reflexivity.
  rewrite !includes_cons_ne by (apply Hin; simpl; tauto).
  reflexivity.
Qed.

Section Parser.
Context {num : Type} `{JSNumber num}.
Variable parseFloat : jsval -> num.
Local Open Scope js_scope.

Lemma number_runs_all (run : string) :
  forall acc,
    all_number_chars run = true -> acc +:+ run <> "" ->
    number_runs run acc = [acc +:+ run].
Proof.
  induction run as [|c run IH]; intros acc Hall Hne; simpl in *.
  - rewrite append_nil_r in *. now destruct (decide (acc = "")).
  - apply andb_true_iff in Hall as [Hc Hall]. rewrite Hc.
    rewrite IH; [| assumption |]; rewrite append_assoc;
      [reflexivity|assumption].
Qed.

Lemma number_runs_last (pre : string) (c : ascii) (run : string) :
  is_number_char c = false -> all_number_chars run = true -> run <> "" ->
  forall acc,
    last (number_runs (pre +:+ String c run) acc) = Some run.
Proof.
  intros Hc Hall Hne.
  assert (Hrun : number_runs run "" = [run])
    by (now apply number_runs_all).
  induction pre as [|x pre IH]; intros acc.
  - change ("" +:+ String c run) with (String c run). simpl.
    rewrite Hc, Hrun. now destruct (decide (acc = "")).
  - rewrite append_cons. simpl.
    destruct (is_number_char x); [apply IH|].
    destruct (decide (acc = "")); [apply IH|].
    rewrite last_cons, IH. reflexivity.
Qed.

(** The amount is read from the last run of digits and dots. For a text
    that ends with such a run, after a character that is neither,
    [parseIndianFormat] applies [parseFloat] to that run alone, and scales
    it by 100000 if the text has "lakh", else by 10000000 if it has
    "crore", in any letter case. *)
Theorem parseIndianFormat_last_run (pre : string) (c : ascii)
    (run : string) :
  is_number_char c = false -> all_number_chars run = true -> run <> "" ->
  let text := pre +:+ String c run in
  parseIndianFormat parseFloat text =
    if includes (toLowerCase text) "lakh"
    then parseFloat (JString run) * num_lit 100000
    else if includes (toLowerCase text) "crore"
    then parseFloat (JString run) * num_lit 10000000
    else parseFloat (JString run).
Proof.
  intros Hc Hall Hne. unfold parseIndianFormat. cbv zeta.
  destruct (decide (pre +:+ String c run = "")) as [E|_].
  { exfalso. destruct pre; discriminate E. }
  now rewrite (number_runs_last pre c run Hc Hall Hne).
Qed.

(** A leading sign or symbol is ignored. A first character that is
    neither a digit nor a dot, and not an "l" or a "c" in either case,
    changes nothing of what [parseIndianFormat] reads from a text that is
    not empty: "-5" is read as 5. *)
Theorem parseIndianFormat_ignores_sign (c : ascii) (text : string) :
  is_number_char c = false ->
  lower_char c <> "l"%char -> lower_char c <> "c"%char ->
  text <> "" ->
  parseIndianFormat parseFloat (String c text) =
  parseIndianFormat parseFloat text.
Proof.
  intros Hc Hl Hcr Hne. unfold parseIndianFormat.
  destruct (decide (String c text = "")) as [E|_]; [discriminate E|].
  destruct (decide (text = "")) as [E|_]; [contradiction|].
  assert (Hruns : number_runs (String c text) "" = number_runs text "")
    by (simpl; now rewrite Hc).
  cbv zeta. rewrite Hruns.
  rewrite (includes_toLowerCase_cons c text "l" "akh") by (auto; now left).
  rewrite (includes_toLowerCase_cons c text "c" "rore") by (auto; now right).
  reflexivity.
Qed.

End Parser.

Lemma parseIndianFormat_last_run_witness :
  parseIndianFormat (num := xnum) parseFloat_plain "Upto 2.5 Lakh is 7"
  = (parseFloat_plain (JString "7") * num_lit 100000)%js.
Proof.
  apply (parseIndianFormat_last_run (num := xnum) parseFloat_plain
           "Upto 2.5 Lakh is" " "%char "7");
    [reflexivity|reflexivity|discriminate].
Defined.

Lemma parseIndianFormat_ignores_sign_witness :
  parseIndianFormat (num := xnum) parseFloat_plain "-5"
  = parseIndianFormat parseFloat_plain "5".
Proof.
  apply (parseIndianFormat_ignores_sign (num := xnum) parseFloat_plain
           "-"%char "5");
    [reflexivity|discriminate|discriminate|discriminate].
Defined.

(** ** Further properties of the page's handlers *)

Lemma array_set_in_range (arr : list jsval) (i : nat) (v : jsval) :
  (i < length arr)%nat -> array_set arr i v = <[i := v]> arr.
Proof. intros Hi. unfold array_set. case_decide; [reflexivity|lia]. Qed.

Lemma length_array_set_in_range (arr : list jsval) (i : nat) (v : jsval) :
  (i < length arr)%nat -> length (array_set arr i v) = length arr.
Proof.
  intros Hi. rewrite array_set_in_range by assumption. apply length_insert.
Qed.

Lemma length_remove_index (i : nat) (arr : list jsval) :
  no_holes arr -> (i < length arr)%nat ->
  length (remove_index i arr) = (length arr - 1)%nat.
Proof.
  intros Hno Hi. rewrite remove_index_delete by assumption.
  now apply length_delete, lookup_lt_is_Some.
Qed.

Lemma length_splice_before_last {A} (arr : list A) (v : A) :
  length (splice_before_last arr v) = S (length arr).
Proof.
  unfold splice_before_last.
  rewrite length_app, length_take. simpl. rewrite length_drop. lia.
Qed.

Lemma length_resize_rates (rates : list jsval) (n : nat) :
  length (resize_rates rates n) = n.
Proof.
  unfold resize_rates.
  rewrite length_take, length_app, length_replicate. lia.
Qed.

Lemma no_holes_app (l1 l2 : list jsval) :
  no_holes l1 -> no_holes l2 -> no_holes (l1 ++ l2).
Proof.
  unfold no_holes. intros H1 H2 Hin.
  apply elem_of_app in Hin as [Hin|Hin]; tauto.
Qed.

Lemma no_holes_resize_rates (rates : list jsval) (n : nat) :
  no_holes rates -> no_holes (resize_rates rates n).
Proof.
  unfold resize_rates. intros Hno Hin.
  apply elem_of_take in Hin as (i & Hi & _).
  apply list_elem_of_lookup_2 in Hi. revert Hi.
  apply no_holes_app; [exact Hno|].
  intros Hin. apply elem_of_replicate in Hin as [Hin _]. discriminate Hin.
Qed.

Section Page.
Context {num : Type} `{JSNumber num}.
Variable parseFloat : jsval -> num.
Variable Math_pow : num -> num -> num.
Variable Number_toString : num -> string.
Variable formatAmount : jsval -> string.

Abbreviation act :=
  (handle parseFloat Math_pow Number_toString formatAmount).
Abbreviation reach :=
  (run parseFloat Math_pow Number_toString formatAmount).
Abbreviation calculate :=
  (calculateInterest parseFloat Math_pow formatAmount).
Abbreviation saves :=
  (calculateInterest_saves parseFloat Math_pow formatAmount).
Abbreviation keeps :=
  (calculateInterest_keeps parseFloat Math_pow formatAmount).

Lemma handle_page_ok (ev : Event) (st : State num) :
  enabled st ev -> page_ok st -> page_ok (next (act ev st)).
Proof.
  intros Hen Hpage.
  pose proof Hpage as [(Hok & Hmax & Hlen & Hths & Hrates) Hsaved].
  pose proof Hok as [_ Hmin].
  destruct ev; cbn [handle enabled] in *; try exact Hpage.
  - (* updateInterestRate *)
    split; [|exact Hsaved]. split; [exact Hok|]. split; [exact Hmax|].
    unfold updateInterestRate. cbn [next interestRates tierThresholds].
    rewrite array_set_in_range by (rewrite length_spread; lia).
    rewrite length_insert, length_spread.
    split; [exact Hlen|]. split; [exact Hths|].
    apply no_holes_insert_string, no_holes_spread.
  - (* updateTierThreshold *)
    unfold updateTierThreshold. case_decide; [exact Hpage|].
    split; [|exact Hsaved]. cbn [next tierThresholds interestRates set_tiers].
    rewrite (spread_no_holes _ Hths), (spread_no_holes _ Hrates).
    split; [apply array_set_ok; (assumption || lia)|].
    rewrite array_set_in_range by assumption. rewrite length_insert.
    split; [exact Hmax|].
    split; [case_decide; [apply length_resize_rates|assumption]|].
    split; [now apply no_holes_insert_string|].
    case_decide; [now apply no_holes_resize_rates|assumption].
  - (* addTier *)
    unfold addTier. case_decide; [exact Hpage|].
    split; [|exact Hsaved]. cbn [next tierThresholds interestRates set_tiers].
    rewrite (spread_no_holes _ Hths), (spread_no_holes _ Hrates).
    split; [now apply splice_before_last_ok|].
    rewrite length_splice_before_last, length_app. simpl.
    split; [lia|]. split; [lia|].
    split; [now apply no_holes_splice_before_last|].
    apply no_holes_app; [exact Hrates|].
    apply all_strings_no_holes. reflexivity.
  - (* removeTier *)
    unfold removeTier. repeat case_decide; try exact Hpage.
    split; [|exact Hsaved]. cbn [next tierThresholds interestRates set_tiers].
    split; [apply remove_index_ok; (assumption || lia)|].
    rewrite !length_remove_index by (assumption || lia).
    split; [lia|]. split; [lia|].
    split; apply no_holes_remove_index.
  - (* resetToDefaults *)
    split; [|exact Hsaved]. cbn [next resetToDefaults set_tiers
                                   tierThresholds interestRates].
    split; [split; [reflexivity|simpl; lia]|].
    split; [simpl; lia|]. split; [reflexivity|].
    split; apply all_strings_no_holes; reflexivity.
  - (* calculateInterest *)
    destruct (alert (calculate st now)) eqn:Halert.
    + now rewrite keeps by congruence.
    + destruct (saves st now Halert)
        as (r & -> & _ & Hr_rates & Hr_ths & _).
      split; [exact (proj1 Hpage)|].
      cbn [savedCalculations]. apply Forall_cons. split.
      * rewrite Hr_rates, Hr_ths.
        rewrite (spread_no_holes _ Hths), (spread_no_holes _ Hrates).
        exact (proj1 Hpage).
      * now apply Forall_take.
  - (* clearHistory *)
    split; [exact (proj1 Hpage)|]. cbn. constructor.
  - (* applyFromHistory *)
    split; [|exact Hsaved]. cbn.
    rewrite Forall_forall in Hsaved. now apply Hsaved.
Qed.

(** The configuration stays well formed. Along every run of the page
    from the default tiers and rates with an empty history, whatever the
    events (edits of rows, adding and removing tiers, calculations, applying
    a saved calculation), the thresholds end with the ['Infinity'] sentinel,
    there are two to ten of them, there are as many rates as thresholds, and
    neither array has a hole. *)
Theorem page_stays_well_formed (st0 st : State num) :
  tierThresholds st0 = defaultThresholds ->
  interestRates st0 = defaultRates ->
  savedCalculations st0 = [] ->
  reach any_event st0 st ->
  thresholds_ok (tierThresholds st) /\
  (length (tierThresholds st) <= 10)%nat /\
  length (interestRates st) = length (tierThresholds st) /\
  no_holes (tierThresholds st) /\
  no_holes (interestRates st).
Proof.
  intros Hths Hrates Hsaved Hrun.
  assert (Hpage : page_ok st); [|exact (proj1 Hpage)].
  induction Hrun as [|st' ev _ IH _ Hen].
  - split.
    + rewrite Hths, Hrates.
      split; [split; [reflexivity|simpl; lia]|].
      split; [simpl; lia|]. split; [reflexivity|].
      split; apply all_strings_no_holes; reflexivity.
    + rewrite Hsaved. constructor.
  - now apply handle_page_ok.
Qed.

Lemma handle_history_shows_result (ev : Event) (st : State num) :
  history_shows_result st -> history_shows_result (next (act ev st)).
Proof.
  intros Hshow. destruct ev; cbn [handle]; try exact Hshow.
  - unfold updateTierThreshold. repeat case_decide; exact Hshow.
  - unfold addTier. case_decide; exact Hshow.
  - unfold removeTier. repeat case_decide; exact Hshow.
  - destruct (alert (calculate st now)) eqn:Halert.
    + now rewrite keeps by congruence.
    + destruct (saves st now Halert) as (r & -> & _).
      right. reflexivity.
  - left. reflexivity.
Qed.

(** The newest saved calculation is the one on display. Along every run
    of the page from an empty history, whatever the events, the history is
    empty or its first entry is the current [result]. *)
Theorem history_starts_with_result (st0 st : State num) :
  savedCalculations st0 = [] ->
  reach any_event st0 st ->
  savedCalculations st = [] \/
  head (savedCalculations st) = result st.
Proof.
  intros Hsaved Hrun. change (history_shows_result st).
  induction Hrun as [|st' ev _ IH _ _]; [now left|].
  now apply handle_history_shows_result.
Qed.

(** [updateTierThreshold] puts the rates back in step. From any state,
    even one with fewer or more rates than thresholds, or with holes, an
    edit of a threshold that is not the last one leaves as many rates as
    thresholds: the rates in place read as before, missing ones are filled
    with ['4.00'] and surplus ones are dropped. The thresholds are a copy
    with the edited slot overwritten. *)
Theorem updateTierThreshold_repairs_rates (index : nat) (value : string)
    (st : State num) :
  (index < length (tierThresholds st) - 1)%nat ->
  let st' := next (updateTierThreshold index value st) in
  tierThresholds st' =
    <[index := JString value]> (spread (tierThresholds st)) /\
  length (interestRates st') = length (tierThresholds st') /\
  (forall i, (i < length (tierThresholds st))%nat ->
     (i < length (interestRates st))%nat ->
     array_get (interestRates st') (Z.of_nat i)
     = array_get (interestRates st) (Z.of_nat i)) /\
  (forall i, (i < length (tierThresholds st))%nat ->
     (length (interestRates st) <= i)%nat ->
     interestRates st' !! i = Some (JString "4.00")).
Proof.
  intros Hindex st'. unfold st', updateTierThreshold.
  case_decide; [lia|].
  cbn [next tierThresholds interestRates set_tiers].
  rewrite array_set_in_range by (rewrite length_spread; lia).
  rewrite length_insert, length_spread. split; [reflexivity|].
  case_decide as Hne.
  - split; [apply length_resize_rates|]. unfold resize_rates. split.
    + intros i Hi Hr. unfold array_get.
      case_decide; [|lia]. rewrite Nat2Z.id.
      rewrite lookup_take_lt, lookup_app_l
        by (rewrite ?length_spread; lia).
      unfold spread. change (map read ?l) with (read <$> l).
      rewrite list_lookup_fmap.
      now destruct (interestRates st !! i) as [[| |]|].
    + intros i Hi Hr.
      rewrite lookup_take_lt, lookup_app_r
        by (rewrite ?length_spread; lia).
      apply lookup_replicate_2. rewrite length_spread. lia.
  - split; [lia|]. split; [reflexivity|]. intros i Hi Hr. lia.
Qed.

(** Applying a saved calculation restores its inputs. If
    [calculateInterest] succeeds in state [st] with result [r], then
    [applyFromHistory(r)], from whatever later state [st'], brings back the
    thresholds, the time period and the interest mode of [st], and the
    rates of [st] as the spread syntax copied them; the amount becomes the
    text of the parsed principal. The compounding frequency of [st] comes
    back if [st] was in Compound mode with a frequency that is not empty; a
    Simple-mode calculation leaves the frequency of [st'] as it is. History
    and result stay those of [st']. *)
Theorem applyFromHistory_restores (st st' : State num) (now : string)
    (r : Result num) :
  alert (calculate st now) = None ->
  result (next (calculate st now)) = Some r ->
  let st'' := next (applyFromHistory Number_toString r st') in
  interestRates st'' = spread (interestRates st) /\
  tierThresholds st'' = tierThresholds st /\
  timePeriod st'' = timePeriod st /\
  isCompound st'' = isCompound st /\
  amountText st'' =
    Number_toString (parseIndianFormat parseFloat (amountText st)) /\
  (isCompound st = true -> compoundFrequency st <> "" ->
   compoundFrequency st'' = compoundFrequency st) /\
  (isCompound st = false ->
   compoundFrequency st'' = compoundFrequency st') /\
  savedCalculations st'' = savedCalculations st' /\
  result st'' = result st'.
Proof.
  intros Halert Hres st''.
  destruct (saves st now Halert)
    as (r0 & Hnext & Hd & Hrates & Hths & Htp & Hmode & Hfreq & Hall).
  rewrite Hnext in Hres. injection Hres as <-.
  rewrite (all_strings_spread _ Hall) in Hths.
  unfold st'', applyFromHistory.
  cbn [next interestRates tierThresholds timePeriod isCompound amountText
         compoundFrequency savedCalculations result].
  rewrite Hrates, Hths, Htp, Hmode, Hd, Hfreq.
  repeat split.
  - intros Hc Hne. rewrite Hc. now case_decide.
  - intros Hc. now rewrite Hc.
Qed.

(** Only a calculation changes the result on display. Whatever else the
    user does (edits of the amount, the rates, the thresholds, the time
    period or the mode, adding or removing a tier, a reset, applying a saved
    calculation), the result stays as it was, so it may no longer belong to
    the inputs shown; the history too stays as it was, unless it is
    cleared. *)
Theorem result_changes_only_on_calculate (ev : Event) (st : State num) :
  (forall now, ev <> EvCalculateInterest now) ->
  result (next (act ev st)) = result st /\
  (ev <> EvClearHistory ->
   savedCalculations (next (act ev st)) = savedCalculations st).
Proof.
  intros Hev.
  destruct ev; cbn [handle]; try (split; [reflexivity|intros _; reflexivity]).
  - unfold updateTierThreshold. case_decide; split; reflexivity.
  - unfold addTier. case_decide; split; reflexivity.
  - unfold removeTier. repeat case_decide; split; reflexivity.
  - now destruct (Hev now).
  - split; [reflexivity|congruence].
Qed.

(** A saved calculation can be reproduced. If [calculateInterest]
    succeeds in state [st] with result [r], the rates of [st] have no hole,
    the text of the principal reads back as the principal, and the
    compounding frequency is not empty in Compound mode, then after
    [applyFromHistory(r)], from whatever later state, [calculateInterest]
    succeeds again and gives the same result: the same principal,
    breakdown, totals, effective rate and saved inputs, with the new date.
    (A hole in the rates is passed over by the first calculation and saved
    as [undefined], which the second one rejects.) *)
Theorem recalculation_reproduces (st st' : State num) (now now' : string)
    (r : Result num) :
  alert (calculate st now) = None ->
  result (next (calculate st now)) = Some r ->
  no_holes (interestRates st) ->
  parseIndianFormat parseFloat (Number_toString (depositAmount r))
    = depositAmount r ->
  (isCompound st = true -> compoundFrequency st <> "") ->
  let st'' := next (applyFromHistory Number_toString r st') in
  alert (calculate st'' now') = None /\
  result (next (calculate st'' now')) =
    Some {| depositAmount := depositAmount r;
            tierBreakdown := tierBreakdown r;
            totalInterest := totalInterest r;
            effectiveRate := effectiveRate r;
            totalAmount := totalAmount r;
            date := now';
            r_rates := r_rates r;
            r_thresholds := r_thresholds r;
            r_timePeriod := r_timePeriod r;
            r_isCompound := r_isCompound r;
            r_compoundFrequency := r_compoundFrequency r |}.
Proof.
  intros Halert Hres Hno Hround Hfreq st''. subst st''.
  destruct (saves st now Halert) as (_ & _ & _ & _ & _ & _ & _ & _ & Hall).
  pose proof (all_strings_spread _ Hall) as Hths.
  pose proof (spread_no_holes _ Hno) as Hrates.
  unfold calculateInterest, getCurrentTiers in Halert, Hres.
  destruct (getTierNames formatAmount (tierThresholds st)) as [names|]
    eqn:Hnames;
    [|unfold getTierNames in Hnames; rewrite Hall in Hnames;
      discriminate Hnames].
  cbn [mbind option_bind] in Halert, Hres.
  unfold calculateInterest_run in Halert, Hres.
  destruct (_ || _) eqn:Ed in Halert; [discriminate|]. rewrite Ed in Hres.
  destruct (array_some _ _) eqn:Er in Halert; [discriminate|].
  rewrite Er in Hres.
  destruct (_ || _) eqn:Ep in Halert; [discriminate|]. rewrite Ep in Hres.
  cbn [next result] in Hres. injection Hres as <-.
  cbn [depositAmount] in Hround.
  unfold calculateInterest, applyFromHistory, getCurrentTiers.
  cbn [next amountText interestRates tierThresholds timePeriod isCompound
         compoundFrequency r_rates r_thresholds r_timePeriod r_isCompound
         r_compoundFrequency depositAmount].
  rewrite Hround, Hths, Hrates, Hnames.
  cbn [mbind option_bind]. unfold calculateInterest_run.
  rewrite Ed, Er, Ep.
  cbn [next alert result amountText interestRates tierThresholds timePeriod
         isCompound compoundFrequency r_rates r_thresholds r_timePeriod
         r_isCompound r_compoundFrequency depositAmount tierBreakdown
         totalInterest effectiveRate totalAmount].
  rewrite Hths, Hrates.
  split; [reflexivity|].
  destruct (isCompound st) eqn:Hmode; [|reflexivity].
  case_decide as Hempty; [now destruct (Hfreq eq_refl)|reflexivity].
Qed.

End Page.

Lemma page_stays_well_formed_witness :
  let st :=
    next (calculateInterest (num := xnum) parseFloat_plain pow_whole
            formatAmount_text
            (next (updateAmount "250000"
                     (next (updateInterestRate 4 "8.00"
                              (next (addTier parseFloat_plain toString_whole
                                       initial_state))))))
            "") in
  thresholds_ok (tierThresholds st) /\
  (length (tierThresholds st) <= 10)%nat /\
  length (interestRates st) = length (tierThresholds st) /\
  no_holes (tierThresholds st) /\
  no_holes (interestRates st).
Proof.
  refine (page_stays_well_formed (num := xnum) parseFloat_plain pow_whole
            toString_whole formatAmount_text initial_state _
            eq_refl eq_refl eq_refl _).
  apply (run_step _ _ _ _ _ _ _ (EvCalculateInterest ""));
    [|exact I|exact I].
  apply (run_step _ _ _ _ _ _ _ (EvUpdateAmount "250000"));
    [|exact I|exact I].
  apply (run_step _ _ _ _ _ _ _ (EvUpdateInterestRate 4 "8.00"));
    [|exact I|vm_compute; lia].
  apply (run_step _ _ _ _ _ _ _ EvAddTier); [|exact I|exact I].
  apply run_nil.
Defined.

Lemma history_starts_with_result_witness :
  let st :=
    next (updateAmount "700000"
            (next (calculateInterest (num := xnum) parseFloat_plain pow_whole
                     formatAmount_text scenario_state ""))) in
  savedCalculations st = [] \/ head (savedCalculations st) = result st.
Proof.
  refine (history_starts_with_result (num := xnum) parseFloat_plain
            pow_whole toString_whole formatAmount_text scenario_state _
            eq_refl _).
  apply (run_step _ _ _ _ _ _ _ (EvUpdateAmount "700000"));
    [|exact I|exact I].
  apply (run_step _ _ _ _ _ _ _ (EvCalculateInterest ""));
    [|exact I|exact I].
  apply run_nil.
Defined.

Lemma updateTierThreshold_repairs_rates_witness :
  let st := sparse_state (num := xnum) in
  let st' := next (updateTierThreshold 1 "250000" st) in
  tierThresholds st' =
    <[1%nat := JString "250000"]> (spread (tierThresholds st)) /\
  length (interestRates st') = length (tierThresholds st') /\
  (forall i, (i < length (tierThresholds st))%nat ->
     (i < length (interestRates st))%nat ->
     array_get (interestRates st') (Z.of_nat i)
     = array_get (interestRates st) (Z.of_nat i)) /\
  (forall i, (i < length (tierThresholds st))%nat ->
     (length (interestRates st) <= i)%nat ->
     interestRates st' !! i = Some (JString "4.00")).
Proof.
  apply (updateTierThreshold_repairs_rates (num := xnum) 1 "250000"
           sparse_state).
  vm_compute. lia.
Defined.

Lemma applyFromHistory_restores_witness :
  exists r,
    result (next (calculateInterest (num := xnum) parseFloat_plain pow_whole
                    formatAmount_text compound_state "")) = Some r /\
    let st'' := next (applyFromHistory toString_whole r initial_state) in
    interestRates st'' = interestRates (compound_state (num := xnum)) /\
    tierThresholds st'' = tierThresholds (compound_state (num := xnum)) /\
    timePeriod st'' = timePeriod (compound_state (num := xnum)) /\
    isCompound st'' = true /\
    compoundFrequency st'' = "annually".
Proof.
  eexists. split; [reflexivity|].
  pose proof (applyFromHistory_restores (num := xnum) parseFloat_plain
                pow_whole toString_whole formatAmount_text compound_state
                initial_state "" _ eq_refl eq_refl)
    as (Hrates & Hths & Htp & Hmode & _ & Hfreq & _).
  cbv zeta. split; [exact Hrates|]. split; [exact Hths|].
  split; [exact Htp|]. split; [exact Hmode|].
  apply Hfreq; [reflexivity|discriminate].
Defined.

Lemma result_changes_only_on_calculate_witness :
  let st :=
    next (calculateInterest (num := xnum) parseFloat_plain pow_whole
            formatAmount_text scenario_state "") in
  result (next (updateAmount "1" st)) = result st /\
  savedCalculations (next (updateAmount "1" st)) = savedCalculations st.
Proof.
  intros st.
  destruct (result_changes_only_on_calculate (num := xnum) parseFloat_plain
              pow_whole toString_whole formatAmount_text
              (EvUpdateAmount "1") st) as [Hresult Hsaved];
    [discriminate|].
  split; [exact Hresult|apply Hsaved; discriminate].
Defined.

Lemma recalculation_reproduces_witness :
  exists r r',
    result (next (calculateInterest (num := xnum) parseFloat_plain pow_whole
                    formatAmount_text compound_state "monday")) = Some r /\
    result (next (calculateInterest parseFloat_plain pow_whole
                    formatAmount_text
                    (next (applyFromHistory toString_whole r initial_state))
                    "tuesday")) = Some r' /\
    tierBreakdown r' = tierBreakdown r /\
    totalInterest r' = totalInterest r /\
    date r' = "tuesday".
Proof.
  eexists. eexists. split; [reflexivity|].
  pose proof (recalculation_reproduces (num := xnum) parseFloat_plain
                pow_whole toString_whole formatAmount_text compound_state
                initial_state "monday" "tuesday" _ eq_refl eq_refl)
    as Hagain.
  destruct Hagain as [_ Hresult].
  - apply all_strings_no_holes. reflexivity.
  - vm_compute. exact_values.
  - discriminate.
  - split; [exact Hresult|]. repeat split.
Defined.

(** ** Further properties of the allocation, in exact arithmetic *)

(** A tier bounded by [-Infinity] stops the allocation. *)
Lemma allocate_stops_neg (t : Tier xnum) (tiers : list (Tier xnum))
    (lo r : Qc) :
  maxAmount t = NegInf ->
  allocate (t :: tiers) (Fin lo) (Fin r) = [].
Proof. intros Hmax. simpl. rewrite Hmax. reflexivity. Qed.

(** Whatever the boundaries, so long as none is [NaN]: the amounts are
    finite and positive, none more than what remained, and taking them
    away from it one after the other never goes below zero. *)
Lemma allocate_within (tiers : list (Tier xnum)) :
  forall lo r,
    Forall (fun t => maxAmount t <> XNaN) tiers -> (0 < r)%Qc ->
    exists s,
      fold_left sub (allocate tiers (Fin lo) (Fin r)) (Fin r) = Fin s /\
      (0 <= s)%Qc /\ (s <= r)%Qc /\
      Forall (fun x => exists a, x = Fin a /\ (0 < a)%Qc /\ (a <= r)%Qc)
        (allocate tiers (Fin lo) (Fin r)).
Proof.
  induction tiers as [|t tiers IH]; intros lo r Hnan Hr.
  - exists r. simpl. repeat split; try qc_lra. constructor.
  - apply Forall_cons in Hnan as [Ht Hnan].
    destruct (maxAmount t) as [b| | |] eqn:Hmax; [| | |congruence].
    + destruct (Qclt_le_dec lo b) as [Hlo|Hlo].
      * destruct (Qclt_le_dec (b - lo) r) as [Hbig|Hfit].
        -- rewrite (allocate_fills t tiers lo b r) by assumption.
           destruct (IH b (r - (b - lo))%Qc Hnan)
             as (s & Hsum & Hs0 & Hs & Hall); [qc_lra|].
           exists s. cbn [fold_left].
           change (sub (Fin r) (Fin (b - lo)%Qc))
             with (Fin (r - (b - lo))%Qc).
           rewrite Hsum. repeat split; try qc_lra.
           apply Forall_cons. split.
           ++ exists (b - lo)%Qc. repeat split; qc_lra.
           ++ eapply Forall_impl; [exact Hall|].
              intros x (a & -> & Ha0 & Ha). exists a.
              repeat split; try assumption. qc_lra.
        -- rewrite (allocate_ends t tiers lo b r) by assumption.
           exists 0%Qc. simpl. repeat split; try qc_lra.
           ++ apply Fin_eq. qc_lra.
           ++ apply Forall_cons. split; [|constructor].
              exists r. repeat split; qc_lra.
      * rewrite (allocate_stops t tiers lo b r) by assumption.
        exists r. simpl. repeat split; try qc_lra. constructor.
    + rewrite (allocate_unbounded t tiers lo r) by assumption.
      exists 0%Qc. simpl. repeat split; try qc_lra.
      * apply Fin_eq. qc_lra.
      * apply Forall_cons. split; [|constructor].
        exists r. repeat split; qc_lra.
    + rewrite (allocate_stops_neg t tiers lo r) by assumption.
      exists r. simpl. repeat split; try qc_lra. constructor.
Qed.

(** Never more than the principal. For a finite principal [p > 0] and
    any tiers whose bounds are not [NaN], in any order and with the sentinel
    anywhere, every allocated amount is a finite number in [(0, p]], and
    what is left of the principal when the amounts are taken away from it
    one after the other, as the loop does with [remainingAmount], is a
    number in [[0, p]]: the breakdown never allots more than the principal.
    In exact arithmetic. *)
Theorem allocation_within_principal (xpow : xnum -> xnum -> xnum) (p : Qc)
    (rates : list xnum) (pv : xnum) (tiers : list (Tier xnum))
    (st : State xnum) (now : string) (r : Result xnum) :
  Forall (fun t => maxAmount t <> XNaN) tiers ->
  alert (calculateInterest_parsed xpow (Fin p) rates pv tiers st now)
    = None ->
  result (next (calculateInterest_parsed xpow (Fin p) rates pv tiers
                  st now)) = Some r ->
  (exists s, fold_left num_sub (allocatedAmounts r) (Fin p) = Fin s /\
             (0 <= s)%Qc /\ (s <= p)%Qc) /\
  (forall e, e ∈ tierBreakdown r ->
     exists a, amount e = Fin a /\ (0 < a)%Qc /\ (a <= p)%Qc).
Proof.
  intros Hnan Halert Hres.
  assert (Hp : (0 < p)%Qc).
  { destruct (Qclt_le_dec 0 p) as [Hp|Hp]; [exact Hp|]. exfalso.
    assert (Hrej : rejected (Fin p) rates pv).
    { left. right. apply le_Fin. qc_lra. }
    apply (calculateInterest_parsed_alert xpow _ _ _ tiers st now) in Hrej.
    congruence. }
  destruct (calculateInterest_parsed_accepted xpow _ _ _ _ _ _ Halert)
    as (r0 & Hnext & _ & Hbd & _).
  rewrite Hnext in Hres. injection Hres as <-.
  destruct (allocate_within tiers 0%Qc p Hnan Hp)
    as (s & Hsum & Hs0 & Hs & Hall).
  assert (Hamounts : allocatedAmounts r0 = allocate tiers (Fin 0%Qc) (Fin p)).
  { unfold allocatedAmounts. rewrite Hbd.
    apply entries_of_amounts, allocate_length. }
  split.
  - exists s. rewrite Hamounts. split; [exact Hsum|split; assumption].
  - intros e He. rewrite Forall_forall in Hall. apply Hall.
    rewrite <- Hamounts. apply list_elem_of_fmap. eauto.
Qed.

(** The tiers are filled one after the other. For tiers with positive,
    strictly increasing boundaries followed by the sentinel and a principal
    [p > 0], the allocated amounts are the capacities of the first [k] tiers
    followed by one last amount, which is positive and no more than the
    capacity of its tier: every listed tier but the last is full, and no
    tier after it is listed. In exact arithmetic. *)
Theorem tiers_fill_in_order (xpow : xnum -> xnum -> xnum) (p : Qc)
    (bs : list Qc) (rates : list xnum) (pv : xnum)
    (tiers : list (Tier xnum)) (st : State xnum) (now : string)
    (r : Result xnum) :
  (0 < p)%Qc ->
  increasing_from 0%Qc bs = true ->
  map maxAmount tiers = map Fin bs ++ [PosInf] ->
  alert (calculateInterest_parsed xpow (Fin p) rates pv tiers st now)
    = None ->
  result (next (calculateInterest_parsed xpow (Fin p) rates pv tiers
                  st now)) = Some r ->
  exists k rest c,
    allocatedAmounts r =
      take k (capacities tiers (num_lit 0)) ++ [Fin rest] /\
    (0 < rest)%Qc /\
    capacities tiers (num_lit 0) !! k = Some c /\
    (Fin rest <=? c)%js = true.
Proof.
  intros Hp Hinc Hmax Halert Hres.
  destruct (calculateInterest_parsed_accepted xpow _ _ _ _ _ _ Halert)
    as (r0 & Hnext & _ & Hbd & _).
  rewrite Hnext in Hres. injection Hres as <-.
  unfold allocatedAmounts. rewrite Hbd.
  rewrite entries_of_amounts by apply allocate_length.
  exact (allocate_greedy bs tiers 0%Qc p Hmax Hinc Hp).
Qed.

Lemma allocation_within_principal_witness :
  exists r,
    result (next (calculateInterest_parsed pow_whole (num_lit 600000)
                    scenario_rates (num_lit 1) decreasing_tiers
                    scenario_state "")) = Some r /\
    (exists s, fold_left num_sub (allocatedAmounts r) (num_lit 600000)
               = Fin s /\
               (0 <= s)%Qc /\ (s <= Q2Qc (inject_Z 600000))%Qc) /\
    (forall e, e ∈ tierBreakdown r ->
       exists a, amount e = Fin a /\ (0 < a)%Qc /\
                 (a <= Q2Qc (inject_Z 600000))%Qc).
Proof.
  eexists. split; [reflexivity|].
  apply (allocation_within_principal pow_whole (Q2Qc (inject_Z 600000))
           scenario_rates (num_lit 1) decreasing_tiers scenario_state "");
    [|reflexivity|reflexivity].
  repeat constructor; discriminate.
Defined.

(** In binary64 the amounts, added up from zero, can exceed the principal
    in the last bit, while what is left of the principal is never negative:
    a principal of 3.4 over the boundaries 0.3, 1.5, 3.4 and Infinity is
    allotted in four amounts, each in [(0, 3.4]]; they leave exactly zero
    and sum to more than 3.4. *)
Example allocation_within_principal_binary64 :
  let P : PrimFloat.float := (num_lit 34 / num_lit 10)%js in
  let tiers :=
    tiers_of [num_lit 3 / num_lit 10; num_lit 15 / num_lit 10;
              num_lit 34 / num_lit 10; Infinity]%js in
  exists r,
    result (next (calculateInterest_parsed Binary64.pow_unused P
                    scenario_rates (num_lit 1) tiers scenario_state ""))
      = Some r /\
    length (allocatedAmounts r) = 4%nat /\
    forallb (fun a => negb (a <=? num_lit 0)%js && (a <=? P)%js)
      (allocatedAmounts r) = true /\
    fold_left num_sub (allocatedAmounts r) P = num_lit 0 /\
    (P <? num_sum (allocatedAmounts r))%js = true.
Proof.
  eexists. split; [vm_compute; reflexivity|].
  vm_compute. repeat split; reflexivity.
Qed.

Lemma tiers_fill_in_order_witness :
  exists r k rest c,
    result (next (calculateInterest_parsed pow_whole (num_lit 300000)
                    scenario_rates (num_lit 1) scenario_tiers
                    scenario_state "")) = Some r /\
    allocatedAmounts r =
      take k (capacities scenario_tiers (num_lit 0)) ++ [Fin rest] /\
    (0 < rest)%Qc /\
    capacities scenario_tiers (num_lit 0) !! k = Some c /\
    (Fin rest <=? c)%js = true.
Proof.
  eexists.
  edestruct (tiers_fill_in_order pow_whole (Q2Qc (inject_Z 300000))
               [Q2Qc (inject_Z 100000); Q2Qc (inject_Z 500000)]
               scenario_rates (num_lit 1) scenario_tiers scenario_state "")
    as (k & rest & c & Hfill);
    [reflexivity|reflexivity|reflexivity|reflexivity|reflexivity|].
  exists k, rest, c. split; [reflexivity|exact Hfill].
Defined.

(** ** Further properties of the tier editing, in exact arithmetic *)

Lemma map_maxAmount_imap {num : Type} (f : jsval -> num)
    (ths : list jsval) :
  forall label : nat -> string,
    map maxAmount
      (imap (fun index threshold =>
               {| maxAmount := f threshold; name := label index |}) ths)
    = map f ths.
Proof.
  induction ths as [|t ths IH]; intros label; [reflexivity|].
  rewrite imap_cons. simpl. f_equal. apply (IH (fun i => label (S i))).
Qed.

(** [getCurrentTiers] reads one bound from each threshold, in order. *)
Lemma getCurrentTiers_bounds {num : Type} `{JSNumber num}
    (parseFloat : jsval -> num) (formatAmount : jsval -> string)
    (st : State num) (tiers : list (Tier num)) :
  getCurrentTiers parseFloat formatAmount st = Some tiers ->
  map maxAmount tiers = tier_bounds parseFloat st.
Proof.
  unfold getCurrentTiers, getTierNames.
  destruct (all_strings (tierThresholds st)) eqn:Hall; [|discriminate].
  cbn [mbind option_bind]. intros [= <-].
  rewrite (map_maxAmount_imap
             (fun threshold =>
                if decide (threshold = JString "Infinity") then Infinity
                else parseFloat threshold)).
  unfold tier_bounds. apply map_ext_in. intros slot Hin.
  unfold all_strings in Hall. rewrite forallb_forall in Hall.
  apply Hall in Hin. now destruct slot.
Qed.

Lemma map_delete {A B} (f : A -> B) (l : list A) :
  forall i, map f (delete i l) = delete i (map f l).
Proof.
  induction l as [|x l IH]; intros [|i]; simpl; try reflexivity.
  f_equal. apply IH.
Qed.

Lemma delete_app_lt {A} (l1 l2 : list A) :
  forall i, (i < length l1)%nat -> delete i (l1 ++ l2) = delete i l1 ++ l2.
Proof.
  induction l1 as [|x l1 IH]; intros [|i] Hi; simpl in *; try lia;
    try reflexivity.
  f_equal. apply IH. lia.
Qed.

Lemma increasing_weaken (bs : list Qc) (lo lo' : Qc) :
  (lo' <= lo)%Qc -> increasing_from lo bs = true ->
  increasing_from lo' bs = true.
Proof.
  destruct bs as [|b bs]; [reflexivity|]. simpl. intros Hlo Hinc.
  apply andb_true_iff in Hinc as [Hlt Hinc]. apply andb_true_iff.
  split; [|exact Hinc].
  change (lt (Fin lo') (Fin b) = true). change (lt (Fin lo) (Fin b) = true)
    in Hlt.
  apply lt_Fin in Hlt. apply lt_Fin. qc_lra.
Qed.

Lemma increasing_delete (bs : list Qc) :
  forall i lo,
    increasing_from lo bs = true ->
    increasing_from lo (delete i bs) = true.
Proof.
  induction bs as [|b bs IH]; intros i lo Hinc; [now destruct i|].
  pose proof Hinc as Hinc'. simpl in Hinc'.
  apply andb_true_iff in Hinc' as [Hlt Hrest].
  change (lt (Fin lo) (Fin b) = true) in Hlt. apply lt_Fin in Hlt.
  destruct i as [|i]; simpl.
  - apply (increasing_weaken bs b lo); [qc_lra|exact Hrest].
  - apply andb_true_iff. split; [now apply lt_Fin|now apply IH].
Qed.

Lemma increasing_snoc (bs : list Qc) :
  forall lo c,
    increasing_from lo bs = true -> (top_from lo bs < c)%Qc ->
    increasing_from lo (bs ++ [c]) = true.
Proof.
  induction bs as [|b bs IH]; intros lo c Hinc Hc; simpl in *.
  - apply andb_true_iff. split; [now apply lt_Fin|reflexivity].
  - apply andb_true_iff in Hinc as [Hlt Hinc].
    apply andb_true_iff. split; [exact Hlt|now apply IH].
Qed.

Lemma increasing_top_strict (bs : list Qc) (lo : Qc) :
  bs <> [] -> increasing_from lo bs = true -> (lo < top_from lo bs)%Qc.
Proof.
  destruct bs as [|b bs]; [congruence|]. intros _ Hinc. simpl in *.
  apply andb_true_iff in Hinc as [Hlt Hinc].
  change (lt (Fin lo) (Fin b) = true) in Hlt. apply lt_Fin in Hlt.
  pose proof (increasing_top bs b Hinc). qc_lra.
Qed.

Lemma threshold_value_read {num : Type} `{JSNumber num}
    (parseFloat : jsval -> num) (slot : jsval) :
  threshold_value parseFloat (read slot) = threshold_value parseFloat slot.
Proof. now destruct slot. Qed.

Section Editing.
Variable parseFloat : jsval -> xnum.
Variable Number_toString : xnum -> string.

(** Removing a tier keeps the boundaries in order. In a state whose
    arrays have no hole and whose tier bounds are the strictly increasing
    [bs] followed by [Infinity], [removeTier] at a row that is not the last
    one, with more than two thresholds, deletes the threshold and the rate
    of that row and leaves the other bounds, which are still strictly
    increasing and still followed by [Infinity]. (A hole would be dropped
    along with the row.) In exact arithmetic. *)
Theorem removeTier_keeps_order (st : State xnum) (index : nat)
    (bs : list Qc) (lo : Qc) :
  tier_bounds parseFloat st = map Fin bs ++ [PosInf] ->
  increasing_from lo bs = true ->
  no_holes (tierThresholds st) ->
  no_holes (interestRates st) ->
  (2 < length (tierThresholds st))%nat ->
  (index < length (tierThresholds st) - 1)%nat ->
  let st' := next (removeTier index st) in
  tierThresholds st' = delete index (tierThresholds st) /\
  interestRates st' = delete index (interestRates st) /\
  tier_bounds parseFloat st' = map Fin (delete index bs) ++ [PosInf] /\
  increasing_from lo (delete index bs) = true.
Proof.
  intros Hbounds Hinc Hths Hrates Hlen Hindex st'. unfold st', removeTier.
  repeat case_decide; try lia.
  cbn [next tierThresholds interestRates set_tiers].
  rewrite !remove_index_delete by assumption.
  split; [reflexivity|]. split; [reflexivity|].
  split; [|now apply increasing_delete].
  unfold tier_bounds in *. cbn [tierThresholds].
  assert (Hsize : length (tierThresholds st) = S (length bs)).
  { rewrite <- (length_map (threshold_value parseFloat)), Hbounds.
    rewrite length_app, length_map. simpl. lia. }
  cbn [tierThresholds set_tiers].
  rewrite map_delete, Hbounds.
  rewrite delete_app_lt by (rewrite length_map; lia).
  now rewrite map_delete.
Qed.

(** Adding a tier keeps the boundaries in order. In a state whose tier
    bounds are the positive, strictly increasing [bs] (at least one)
    followed by [Infinity], with fewer than ten thresholds, [addTier] puts
    twice the highest finite bound just before [Infinity], provided that
    number survives being written and read back: the bounds are still
    strictly increasing. A rate of ['4.00'] is added at the end of a copy
    of the rates. In exact arithmetic. *)
Theorem addTier_keeps_order (st : State xnum) (bs : list Qc) :
  tier_bounds parseFloat st = map Fin bs ++ [PosInf] ->
  bs <> [] ->
  increasing_from 0%Qc bs = true ->
  (length (tierThresholds st) < 10)%nat ->
  let doubled := (top_from 0%Qc bs * Q2Qc (inject_Z 2))%Qc in
  Number_toString (Fin doubled) <> "Infinity" ->
  parseFloat (JString (Number_toString (Fin doubled))) = Fin doubled ->
  let st' := next (addTier parseFloat Number_toString st) in
  tier_bounds parseFloat st' = map Fin (bs ++ [doubled]) ++ [PosInf] /\
  increasing_from 0%Qc (bs ++ [doubled]) = true /\
  interestRates st' = spread (interestRates st) ++ [JString "4.00"].
Proof.
  intros Hbounds Hne Hinc Hroom doubled Hshow Hread st'.
  pose proof (increasing_top_strict bs 0%Qc Hne Hinc) as Htop.
  unfold st', addTier. case_decide; [lia|].
  cbn [next tierThresholds interestRates set_tiers].
  split; [|split; [|reflexivity]].
  2: { apply increasing_snoc; [exact Hinc|]. unfold doubled. qc_lra. }
  unfold tier_bounds in *. cbn [tierThresholds].
  destruct (tierThresholds st) as [|x ths _] using rev_ind;
    [destruct bs; discriminate Hbounds|].
  rewrite map_app in Hbounds. simpl in Hbounds.
  apply app_inj_tail in Hbounds as [Hths Hlast].
  assert (Hsize : length ths = length bs)
    by (rewrite <- (length_map (threshold_value parseFloat)), Hths;
        apply length_map).
  (* the threshold before the sentinel reads as the highest bound *)
  assert (Hprev : parseFloat (array_get (ths ++ [x])
                    (Z.of_nat (length (ths ++ [x])) - 2))
                  = Fin (top_from 0%Qc bs)).
  { destruct ths as [|y ths _] using rev_ind;
      [destruct bs; [congruence|discriminate Hsize]|].
    destruct bs as [|b bs _] using rev_ind; [congruence|].
    rewrite !map_app in Hths. simpl in Hths.
    apply app_inj_tail in Hths as [_ Hy].
    assert (Htopb : top_from 0%Qc (bs ++ [b]) = b).
    { clear. generalize 0%Qc. induction bs as [|c bs IH]; intros lo;
        [reflexivity|apply IH]. }
    rewrite Htopb. unfold array_get. rewrite !length_app. simpl.
    case_decide; [|lia].
    replace (Z.to_nat (Z.of_nat (length ths + 1 + 1) - 2)) with (length ths)
      by lia.
    rewrite <- app_assoc. cbn [app].
    rewrite list_lookup_middle by reflexivity.
    simpl. unfold threshold_value in Hy.
    case_decide; [discriminate Hy|exact Hy]. }
  rewrite Hprev.
  assert (Hor : num_or (Fin (top_from 0%Qc bs)) (num_lit 100000)
                = Fin (top_from 0%Qc bs)).
  { unfold num_or. simpl. cmp. reflexivity. }
  rewrite Hor.
  change (@num_mul xnum _ (Fin (top_from 0%Qc bs)) (num_lit 2))
    with (Fin doubled).
  unfold splice_before_last. rewrite length_spread, length_app. simpl length.
  replace (length ths + 1 - 1)%nat with (length ths) by lia.
  unfold spread. rewrite map_app. cbn [map].
  rewrite <- (length_map read ths) at 1 2.
  rewrite take_app_length, drop_app_length.
  cbn [tierThresholds set_tiers]. rewrite !map_app, map_map.
  rewrite (map_ext _ (threshold_value parseFloat)
             (threshold_value_read parseFloat)), Hths.
  cbn [map app]. rewrite threshold_value_read, Hlast, <- app_assoc.
  cbn [app].
  unfold threshold_value at 1. case_decide as Hinf.
  - injection Hinf as Hinf. contradiction.
  - cbn [read]. now rewrite Hread.
Qed.

End Editing.

Lemma removeTier_keeps_order_witness :
  let bs := [Q2Qc (inject_Z 100000); Q2Qc (inject_Z 500000);
             Q2Qc (inject_Z 500000000)] in
  let st' := next (removeTier 1 (initial_state (num := xnum))) in
  tierThresholds st' = delete 1%nat (tierThresholds (initial_state (num := xnum))) /\
  interestRates st' = delete 1%nat (interestRates (initial_state (num := xnum))) /\
  tier_bounds parseFloat_plain st' = map Fin (delete 1%nat bs) ++ [PosInf] /\
  increasing_from 0%Qc (delete 1%nat bs) = true.
Proof.
  apply (removeTier_keeps_order parseFloat_plain initial_state 1
           [Q2Qc (inject_Z 100000); Q2Qc (inject_Z 500000);
            Q2Qc (inject_Z 500000000)] 0%Qc).
  - vm_compute. exact_values.
  - reflexivity.
  - apply all_strings_no_holes. reflexivity.
  - apply all_strings_no_holes. reflexivity.
  - vm_compute. lia.
  - vm_compute. lia.
Defined.

Lemma addTier_keeps_order_witness :
  let bs := [Q2Qc (inject_Z 100000); Q2Qc (inject_Z 500000);
             Q2Qc (inject_Z 500000000)] in
  let doubled := (top_from 0%Qc bs * Q2Qc (inject_Z 2))%Qc in
  let st' := next (addTier parseFloat_plain toString_whole
                     (initial_state (num := xnum))) in
  tier_bounds parseFloat_plain st' = map Fin (bs ++ [doubled]) ++ [PosInf] /\
  increasing_from 0%Qc (bs ++ [doubled]) = true /\
  interestRates st' = defaultRates ++ [JString "4.00"].
Proof.
  apply (addTier_keeps_order parseFloat_plain toString_whole initial_state
           [Q2Qc (inject_Z 100000); Q2Qc (inject_Z 500000);
            Q2Qc (inject_Z 500000000)]).
  - vm_compute. exact_values.
  - discriminate.
  - reflexivity.
  - vm_compute. lia.
  - vm_compute. discriminate.
  - vm_compute. exact_values.
Defined.

(** ** Unreadable thresholds, in exact arithmetic *)

Lemma allocate_NaN (tiers : list (Tier xnum)) :
  forall prev, allocate tiers prev XNaN = map (fun _ => XNaN) tiers.
Proof.
  induction tiers as [|t tiers IH]; intros prev; [reflexivity|].
  cbn [allocate map]. cbn. f_equal. apply IH.
Qed.

Lemma allocate_unreadable (t : Tier xnum) (tiers : list (Tier xnum))
    (prev d : xnum) :
  maxAmount t = XNaN -> is_nan d = false ->
  allocate (t :: tiers) prev d = map (fun _ => XNaN) (t :: tiers).
Proof.
  intros Hmax Hd. cbn [allocate map]. rewrite Hmax.
  assert (Hmin : min d (sub XNaN prev) = XNaN) by (now destruct d, prev).
  change (Math_min d (XNaN - prev)%js) with (min d (sub XNaN prev)).
  rewrite Hmin.
  assert (Hrest : sub d XNaN = XNaN) by (now destruct d).
  change (d - XNaN)%js with (sub d XNaN). rewrite Hrest.
  cbn. f_equal. apply allocate_NaN.
Qed.

Lemma tierInterest_NaN (xpow : xnum -> xnum -> xnum) (st : State xnum)
    (pv rate : xnum) :
  tierInterest xpow st pv XNaN rate = XNaN.
Proof.
  unfold tierInterest, compoundTierInterest, simpleTierInterest.
  destruct (isCompound st); reflexivity.
Qed.

Lemma fold_interest_NaN (l : list (TierEntry xnum)) :
  forall acc,
    (exists e, e ∈ l /\ interest e = XNaN) ->
    fold_left (fun total e => (total + interest e)%js) l acc = XNaN.
Proof.
  assert (Hnan : forall l : list (TierEntry xnum),
            fold_left (fun total e => (total + interest e)%js) l XNaN = XNaN).
  { clear. induction l as [|e l IH]; [reflexivity|]. exact IH. }
  induction l as [|e l IH]; intros acc (e' & Hin & He').
  - now apply elem_of_nil in Hin.
  - cbn [fold_left]. apply elem_of_cons in Hin as [<- | Hin].
    + rewrite He'.
      change (acc + XNaN)%js with (add acc XNaN).
      replace (add acc XNaN) with XNaN by (now destruct acc).
      apply Hnan.
    + apply IH. eauto.
Qed.



(** ** The units of the duration, in exact arithmetic *)

Lemma entries_of_ext (f g : xnum -> xnum -> xnum) (rates : list xnum) :
  (forall a r, f a r = g a r) ->
  forall amounts tiers i,
    entries_of f rates tiers i amounts = entries_of g rates tiers i amounts.
Proof.
  intros Hfg. induction amounts as [|a amounts IH]; intros tiers i;
    [reflexivity|].
  destruct tiers as [|t tiers]; [reflexivity|].
  cbn [entries_of]. now rewrite Hfg, IH.
Qed.

Lemma mul_one_r (x : xnum) : mul x (Fin 1%Qc) = x.
Proof.
  destruct x as [a| | |]; try reflexivity.
  simpl. fin_ring.
Qed.

Lemma timeInYears_whole_years (unit : string) (n : Z) (k : Qc) :
  (unit, n) ∈ [("day", 365%Z); ("month", 12%Z); ("quarter", 4%Z)] ->
  String.eqb unit "year" = false /\
  timeInYears unit (Fin (k * Q2Qc (inject_Z n))%Qc) = Fin k.
Proof.
  intros Hunit.
  repeat (apply elem_of_cons in Hunit as [Hunit|Hunit];
          [injection Hunit as -> ->; split; [reflexivity|];
           unfold timeInYears; cbn [String.eqb Ascii.eqb Bool.eqb];
           unfold num_div, num_lit, number, lit, div;
           destruct (Qc_eq_dec _ _) as [E|E]; [discriminate E|];
           f_equal; field; exact E|]).
  now apply elem_of_nil in Hunit.
Qed.

(** A duration is the same in every unit. A calculation over [365 k]
    days, [12 k] months or [4 k] quarters gives the breakdown, the total
    interest, the total amount and the effective annual rate of the
    calculation over [k] years, in both modes and whatever [Math.pow] is. In
    exact arithmetic. *)
Theorem same_duration_same_interest (xpow : xnum -> xnum -> xnum)
    (d : xnum) (rates : list xnum) (tiers : list (Tier xnum))
    (st : State xnum) (now : string) (unit : string) (n : Z) (k : Qc)
    (r r' : Result xnum) :
  (unit, n) ∈ [("day", 365%Z); ("month", 12%Z); ("quarter", 4%Z)] ->
  let in_units := next (updateTimePeriodUnit unit st) in
  let in_years := next (updateTimePeriodUnit "year" st) in
  let pv := Fin (k * Q2Qc (inject_Z n))%Qc in
  alert (calculateInterest_parsed xpow d rates pv tiers in_units now)
    = None ->
  result (next (calculateInterest_parsed xpow d rates pv tiers in_units
                  now)) = Some r ->
  alert (calculateInterest_parsed xpow d rates (Fin k) tiers in_years now)
    = None ->
  result (next (calculateInterest_parsed xpow d rates (Fin k) tiers
                  in_years now)) = Some r' ->
  tierBreakdown r = tierBreakdown r' /\
  totalInterest r = totalInterest r' /\
  totalAmount r = totalAmount r' /\
  effectiveRate r = effectiveRate r'.
Proof.
  intros Hunit in_units in_years pv Halert Hres Halert' Hres'.
  destruct (timeInYears_whole_years unit n k Hunit) as [Hyear Htime].
  fold pv in Htime.
  destruct (accepted_period _ _ _ _ _ _ _ Halert) as [Hnan Hpos].
  pose proof (annualizationFactor_inverse unit pv Hnan Hpos) as Hfactor.
  rewrite Htime in Hfactor.
  destruct (calculateInterest_parsed_accepted xpow _ _ _ _ _ _ Halert)
    as (r0 & Hnext & _ & Hbd & Htot & Heff & Hamount & _).
  rewrite Hnext in Hres. injection Hres as <-.
  destruct (calculateInterest_parsed_accepted xpow _ _ _ _ _ _ Halert')
    as (r1 & Hnext' & _ & Hbd' & Htot' & Heff' & Hamount' & _).
  rewrite Hnext' in Hres'. injection Hres' as <-.
  assert (Hinterest : forall a rt,
            tierInterest xpow in_units pv a rt
            = tierInterest xpow in_years (Fin k) a rt).
  { intros a rt.
    unfold tierInterest, compoundTierInterest, simpleTierInterest, in_units,
      in_years, updateTimePeriodUnit, set_timePeriod.
    cbn [next isCompound compoundFrequency timePeriod tp_unit].
    rewrite Htime. reflexivity. }
  assert (Hsame : tierBreakdown r0 = tierBreakdown r1).
  { rewrite Hbd, Hbd'. now apply entries_of_ext. }
  assert (Htotal : totalInterest r0 = totalInterest r1).
  { rewrite Htot, Htot', Hsame. reflexivity. }
  split; [exact Hsame|]. split; [exact Htotal|]. split.
  - now rewrite Hamount, Hamount', Htotal.
  - rewrite Heff, Heff', Htotal.
    unfold in_units, in_years, updateTimePeriodUnit, set_timePeriod.
    cbn [next timePeriod tp_unit]. rewrite Hyear, Hfactor.
    cbn [andb String.eqb Ascii.eqb Bool.eqb].
    change (annualizationFactor "year" (Fin k)) with (div (lit 1) (Fin k)).
    destruct (num_eq (Fin k) (num_lit 1)) eqn:Hone; [|reflexivity].
    apply eq_true in Hone. injection Hone as ->.
    change (num_lit 1 : xnum) with (lit 1).
    assert (Hdiv : div (lit 1) (Fin (Q2Qc (inject_Z 1))) = Fin 1%Qc)
      by (apply Fin_eq; reflexivity).
    rewrite Hdiv. apply mul_one_r.
Qed.

Lemma same_duration_same_interest_witness :
  exists r r',
    result (next (calculateInterest_parsed pow_whole (num_lit 600000)
                    scenario_rates (Fin (Q2Qc (inject_Z 2)
                                         * Q2Qc (inject_Z 12))%Qc)
                    scenario_tiers
                    (next (updateTimePeriodUnit "month" compound_state))
                    "")) = Some r /\
    result (next (calculateInterest_parsed pow_whole (num_lit 600000)
                    scenario_rates (Fin (Q2Qc (inject_Z 2)))
                    scenario_tiers
                    (next (updateTimePeriodUnit "year" compound_state))
                    "")) = Some r' /\
    tierBreakdown r = tierBreakdown r' /\
    totalInterest r = totalInterest r' /\
    totalAmount r = totalAmount r' /\
    effectiveRate r = effectiveRate r'.
Proof.
  do 2 eexists. split; [reflexivity|]. split; [reflexivity|].
  apply (same_duration_same_interest pow_whole (num_lit 600000)
           scenario_rates scenario_tiers compound_state "" "month" 12
           (Q2Qc (inject_Z 2)));
    try reflexivity.
  apply list_elem_of_further, list_elem_of_here.
Defined.

(** ** Adding a tier and removing it again *)

Section AddRemove.
Context {num : Type} `{JSNumber num}.
Variable parseFloat : jsval -> num.
Variable Number_toString : num -> string.

(** [addTier] moves the top rate down, and [removeTier] does not bring it
    back. [addTier] puts the new threshold just below the sentinel but the
    new rate ['4.00'] at the end of the rates: the row of the new tier shows
    the rate the top tier had, and the top tier has ['4.00']. Removing the
    new tier again restores the thresholds, but the rate of the top tier
    stays ['4.00']. What is restored is the copy the spread syntax made,
    with [undefined] for a hole. In every model of numbers. *)
Theorem addTier_then_removeTier (st : State num) :
  let n := length (tierThresholds st) in
  (2 <= n < 10)%nat ->
  length (interestRates st) = n ->
  let added := next (addTier parseFloat Number_toString st) in
  let removed := next (removeTier (n - 1) added) in
  interestRates added !! (n - 1)%nat
    = spread (interestRates st) !! (n - 1)%nat /\
  interestRates added !! n = Some (JString "4.00") /\
  tierThresholds added !! n = spread (tierThresholds st) !! (n - 1)%nat /\
  tierThresholds removed = spread (tierThresholds st) /\
  interestRates removed =
    take (n - 1) (spread (interestRates st)) ++ [JString "4.00"].
Proof.
  intros n Hn Hrates added removed. subst added removed.
  unfold addTier. fold n. case_decide; [lia|].
  cbn [next tierThresholds interestRates set_tiers].
  set (ths := spread (tierThresholds st)).
  set (rates := spread (interestRates st)).
  assert (Hths : length ths = n) by apply length_spread.
  assert (Hlen : length rates = n)
    by (unfold rates; now rewrite length_spread).
  assert (Hno_ths : no_holes ths) by apply no_holes_spread.
  assert (Hno_rates : no_holes rates) by apply no_holes_spread.
  split; [now rewrite lookup_app_l by lia|].
  split.
  { rewrite lookup_app_r by lia.
    now replace (n - length rates)%nat with 0%nat by lia. }
  assert (Hcut : length (take (n - 1) ths) = (n - 1)%nat)
    by (rewrite length_take; lia).
  split.
  { unfold splice_before_last. rewrite Hths.
    rewrite lookup_app_r by lia. rewrite Hcut.
    replace (n - (n - 1))%nat with 1%nat by lia.
    rewrite <- lookup_tail. cbn [tail].
    rewrite lookup_drop. f_equal. lia. }
  unfold removeTier.
  cbn [next tierThresholds interestRates set_tiers].
  rewrite length_splice_before_last, Hths.
  case_decide; [lia|]. case_decide; [lia|].
  cbn [next tierThresholds interestRates set_tiers].
  rewrite !remove_index_delete.
  - split.
    + unfold splice_before_last. rewrite Hths.
      rewrite <- Hcut at 1. rewrite delete_middle. apply take_drop.
    + rewrite delete_take_drop, take_app_le, drop_app_ge by lia.
      f_equal. rewrite Hlen.
      now replace (S (n - 1) - n)%nat with 0%nat by lia.
  - apply no_holes_app; [exact Hno_rates|].
    apply all_strings_no_holes. reflexivity.
  - now apply no_holes_splice_before_last.
Qed.

End AddRemove.

Lemma addTier_then_removeTier_witness :
  let st := sparse_state (num := xnum) in
  let added := next (addTier parseFloat_plain toString_whole st) in
  let removed := next (removeTier 3 added) in
  interestRates added !! 3%nat = Some (JString "7.00") /\
  interestRates added !! 4%nat = Some (JString "4.00") /\
  tierThresholds added !! 4%nat = Some (JString "Infinity") /\
  tierThresholds removed = defaultThresholds /\
  interestRates removed =
    [JString "5.00"; JString "6.00"; JUndefined; JString "4.00"].
Proof.
  apply (addTier_then_removeTier (num := xnum) parseFloat_plain
           toString_whole sparse_state);
    [vm_compute; lia|reflexivity].
Defined.
